(** * SecureScan AI: the scan-to-verdict pipeline

    A shallow embedding of the risk classifier ([src/utils.ts] and
    [server.ts]), the assessment client ([src/services/gemini.ts]), the
    assessment service ([server.ts], [POST /api/analyze]) and the scan
    session controller ([src/App.tsx]: the state initialiser and
    [handleScan]).

    Conventions.
    - A JavaScript [number] holding a risk score or a timestamp is an
      integer of [Z].
    - Values are typed as TypeScript declares them ([ScanResult],
      [Partial<ScanResult>], [AppState]); a property that may be missing
      is an [option].  Where a value of run time falls outside its
      declared type and the behaviour of the code turns on it (a [null]
      body, a stored text that is no array), module [Runtime] has the
      wider value.
    - [try { ... } catch { ... }] is explicit: a computation that may
      throw returns a [Completion].
    - What the outside world answers (the clock, the random generator,
      the network, the AI backend, [JSON.parse] on a foreign text, the
      browser storage) is an input of the function that asks. *)

From Stdlib Require Import ZArith List String Ascii Bool Lia.
From Stdlib Require Import DecimalString.
Import ListNotations.
Open Scope string_scope.
Open Scope Z_scope.

(** * Part I: the program *)

(** ** Exceptions *)

Inductive Error : Type :=
| NetworkError                    (* [fetch] rejects *)
| SyntaxError                     (* [JSON.parse] / [response.json()] on a malformed text *)
| TypeError                       (* a property read on [null] *)
| SecurityError                   (* [localStorage] is not accessible *)
| BackendError                    (* [getAI()] or [generateContent] throws *)
| NewError (message : string).    (* [throw new Error(message)] *)

Inductive Completion (A : Type) : Type :=
| Normal (a : A)
| Throw (e : Error).
Arguments Normal {A} a.
Arguments Throw {A} e.

Definition bind {A B} (c : Completion A) (k : A -> Completion B) : Completion B :=
  match c with
  | Normal a => k a
  | Throw e => Throw e
  end.

Definition try_catch {A} (body : Completion A) (handler : Error -> Completion A)
  : Completion A :=
  match body with
  | Normal a => Normal a
  | Throw e => handler e
  end.

Declare Scope js_scope.
Delimit Scope js_scope with js.
Notation "'let*' x ':=' c 'in' k" := (bind c (fun x => k))
  (at level 10, x name, c at level 100, k at level 200) : js_scope.

(** ** types.ts *)

Inductive RiskLevel : Type :=
| safe
| suspicious
| high_risk.

Definition RiskLevel_eqb (a b : RiskLevel) : bool :=
  match a, b with
  | safe, safe | suspicious, suspicious | high_risk, high_risk => true
  | _, _ => false
  end.

Record ScanResult : Type := {
  id : string;
  url : string;
  timestamp : Z;
  riskScore : Z;
  riskLevel : RiskLevel;
  indicators : list string;
  recommendation : string;
  analysis : string
}.

(** [Partial<ScanResult>]: every property is optional. *)
Module Partial.
Record ScanResult : Type := {
  id : option string;
  url : option string;
  timestamp : option Z;
  riskScore : option Z;
  riskLevel : option RiskLevel;
  indicators : option (list string);
  recommendation : option string;
  analysis : option string
}.

(** The object literal [{}]. *)
Definition empty : ScanResult :=
  {| id := None; url := None; timestamp := None; riskScore := None;
     riskLevel := None; indicators := None; recommendation := None;
     analysis := None |}.
End Partial.

Module Screen.
Inductive t : Type := home | scanning | result | history.
End Screen.

Record AppState : Type := {
  screen : Screen.t;
  currentResult : option ScanResult;
  history : list ScanResult;
  blockedUrls : list string
}.

(** ** The operator [||] at the types it is used at

    [x || d] is [d] when [x] is falsy: [undefined], the number [0], the
    empty string.  An array is always truthy, and so is each of the three
    risk-level strings. *)

Definition or_number (x : option Z) (d : Z) : Z :=
  match x with
  | Some n => if n =? 0 then d else n
  | None => d
  end.

Definition or_string (x : option string) (d : string) : string :=
  match x with
  | Some s => if (s =? "")%string then d else s
  | None => d
  end.

Definition or_array {A} (x : option (list A)) (d : list A) : list A :=
  match x with
  | Some l => l
  | None => d
  end.

Definition or_level (x : option RiskLevel) (d : RiskLevel) : RiskLevel :=
  match x with
  | Some l => l
  | None => d
  end.

(** ** utils.ts *)

Module Utils.

(** [export function getRiskLevel(score: number)] *)
Definition getRiskLevel (score : Z) : RiskLevel :=
  if score <? 30 then safe
  else if score <? 70 then suspicious
  else high_risk.

End Utils.

(** ** HTTP between the client and the service *)

(** The body of a response as [response.json()] sees it: a text that is
    not JSON, or the object it parses to, read at the properties of
    [Partial<ScanResult>] (the type [analyzeUrl] declares for it). *)
Inductive ResponseBody : Type :=
| body_malformed
| body_json (o : Partial.ScanResult).

(** What [await fetch(...)] does: the promise rejects, or it resolves to
    a response with a status and a body. *)
Inductive FetchOutcome : Type :=
| fetch_rejects
| fetch_resolves (status : Z) (body : ResponseBody).

(** [response.ok]: the status is in the range 200..299. *)
Definition ok (status : Z) : bool := (200 <=? status) && (status <=? 299).

(** ** server.ts *)

Module Server.

(** [function getRiskLevel(score: number)], the server's own copy. *)
Definition getRiskLevel (score : Z) : RiskLevel :=
  if score <? 30 then safe
  else if score <? 70 then suspicious
  else high_risk.

(** What [JSON.parse] does on a text of the AI backend: it throws, or
    returns [null], or returns an object, read at the properties of
    [Partial<ScanResult>].  (A number, a boolean, a string or an array
    has none of these properties, and spreading it copies none: it
    reads as [parse_object Partial.empty].) *)
Inductive Parsed : Type :=
| parse_throws
| parse_null
| parse_object (data : Partial.ScanResult).

(** What [getAI()] followed by [await ai.models.generateContent(...)]
    does: one of them throws, or the call returns a response whose
    [text] is [undefined] or empty, or a response with a non-empty
    [text] (given with what [JSON.parse] makes of it). *)
Inductive Generated : Type :=
| generate_throws
| generate_no_text
| generate_text (p : Parsed).

(** The JSON value passed to [res.json]. *)
Inductive Payload : Type :=
| error_payload (error : string)
| result_payload (o : Partial.ScanResult).

Record Response : Type := { status : Z; body : Payload }.

Definition generateContent (g : Generated) : Completion (option Parsed) :=
  match g with
  | generate_throws => Throw BackendError
  | generate_no_text => Normal None
  | generate_text p => Normal (Some p)
  end.

(** [JSON.parse(response.text || "{}")] *)
Definition JSON_parse_text (text : option Parsed) : Completion (option Partial.ScanResult) :=
  match text with
  | None => Normal (Some Partial.empty)
  | Some parse_throws => Throw SyntaxError
  | Some parse_null => Normal None
  | Some (parse_object data) => Normal (Some data)
  end.

(** [{ ...data, riskLevel: getRiskLevel(data.riskScore || 0) }]:
    spreading [null] copies nothing, reading [data.riskScore] on [null]
    throws. *)
Definition with_riskLevel (data : option Partial.ScanResult)
  : Completion Partial.ScanResult :=
  match data with
  | None => Throw TypeError
  | Some d =>
      Normal {| Partial.id := Partial.id d;
                Partial.url := Partial.url d;
                Partial.timestamp := Partial.timestamp d;
                Partial.riskScore := Partial.riskScore d;
                Partial.riskLevel :=
                  Some (getRiskLevel (or_number (Partial.riskScore d) 0));
                Partial.indicators := Partial.indicators d;
                Partial.recommendation := Partial.recommendation d;
                Partial.analysis := Partial.analysis d |}
  end.

(** The payload of the [catch] branch. *)
Definition fallback : Partial.ScanResult :=
  {| Partial.id := None; Partial.url := None; Partial.timestamp := None;
     Partial.riskScore := Some 50;
     Partial.riskLevel := Some suspicious;
     Partial.indicators := Some ["Analysis failed due to server error"];
     Partial.recommendation :=
       Some "Proceed with extreme caution. Manual verification required.";
     Partial.analysis :=
       Some "We were unable to complete the AI-powered deep scan at this time." |}.

(** [!url] for the [url] property of the request body. *)
Definition url_missing (url : option string) : bool :=
  match url with
  | None => true
  | Some u => (u =? "")%string
  end.

(** [app.post("/api/analyze", async (req, res) => { ... })], for the
    request body [{ url }] and the answer [g] of the AI backend. *)
Definition analyze (url : option string) (g : Generated) : Completion Response :=
  if url_missing url then
    Normal {| status := 400; body := error_payload "URL is required" |}
  else
    try_catch
      (let* text := generateContent g in
       let* data := JSON_parse_text text in
       let* o := with_riskLevel data in
       Normal {| status := 200; body := result_payload o |})%js
      (fun error =>
         Normal {| status := 500; body := result_payload fallback |}).

(** The service as the client's [fetch] meets it.  A payload travels as
    JSON and is read back at the properties of [Partial<ScanResult>]:
    the error object has none of them.  A handler that threw would
    leave the framework's own error page, which is not JSON. *)
Definition serve (url : string) (g : Generated) : FetchOutcome :=
  match analyze (Some url) g with
  | Normal r =>
      fetch_resolves (status r)
        (body_json match body r with
                   | error_payload _ => Partial.empty
                   | result_payload o => o
                   end)
  | Throw _ => fetch_resolves 500 body_malformed
  end.

End Server.

(** ** services/gemini.ts *)

Module Gemini.

(** The object returned by the [catch] branch. *)
Definition fallback : Partial.ScanResult :=
  {| Partial.id := None; Partial.url := None; Partial.timestamp := None;
     Partial.riskScore := Some 50;
     Partial.riskLevel := Some suspicious;
     Partial.indicators := Some ["Analysis failed due to network error"];
     Partial.recommendation :=
       Some "Proceed with extreme caution. Manual verification required.";
     Partial.analysis :=
       Some "We were unable to complete the AI-powered deep scan at this time." |}.

Definition await_fetch (f : FetchOutcome) : Completion (Z * ResponseBody) :=
  match f with
  | fetch_rejects => Throw NetworkError
  | fetch_resolves status body => Normal (status, body)
  end.

(** [await response.json()] *)
Definition json (body : ResponseBody) : Completion Partial.ScanResult :=
  match body with
  | body_malformed => Throw SyntaxError
  | body_json o => Normal o
  end.

(** [export async function analyzeUrl(url)], where [fetch] tells what
    the POST of [{ url }] to [/api/analyze] does. *)
Definition analyzeUrl (fetch : string -> FetchOutcome) (url : string)
  : Completion Partial.ScanResult :=
  try_catch
    (let* response := await_fetch (fetch url) in
     if negb (ok (fst response)) then Throw (NewError "Failed to analyze URL")
     else json (snd response))%js
    (fun error => Normal fallback).

End Gemini.

(** ** App.tsx *)

(** [[...new Set(l)]]: the elements of [l] in the order of their first
    occurrence. *)
Fixpoint Set_spread (seen l : list string) : list string :=
  match l with
  | [] => []
  | x :: l' =>
      if existsb (String.eqb x) seen then Set_spread seen l'
      else x :: Set_spread (x :: seen) l'
  end.

(** [l.includes(x)] on an array of strings. *)
Definition includes (l : list string) (x : string) : bool :=
  existsb (String.eqb x) l.

(** [l.slice(0, n)] *)
Definition slice0 {A} (n : nat) (l : list A) : list A := firstn n l.
Arguments slice0 : simpl never.

(** [String(n)] for an integer [n]. *)
Definition Number_toString (n : Z) : string :=
  NilZero.string_of_int (Z.to_int n).

(** [s.substring(n)] *)
Definition substring_from (n : nat) (s : string) : string :=
  String.substring n (String.length s - n) s.

(** What one call of [handleScan] draws from outside: the readings of
    [Date.now()] in the order they are taken, the text of
    [Math.random().toString(36)], and what [fetch] does. *)
Record Env : Type := {
  Date_now : nat -> Z;
  Math_random_toString36 : string;
  fetch : string -> FetchOutcome
}.

(** The component's state hooks, and the arguments of the calls of
    [analyzeUrl] made so far (newest first). *)
Record World : Type := {
  state : AppState;
  isAnalyzing : bool;
  showAlert : bool;
  analyzeUrl_calls : list string
}.

(** A handler of the component: it runs on the world and may throw. *)
Definition Handler (A : Type) : Type := World -> Completion A * World.

Definition ret {A} (a : A) : Handler A := fun w => (Normal a, w).

Definition and_then {A B} (m : Handler A) (k : A -> Handler B) : Handler B :=
  fun w =>
    match m w with
    | (Normal a, w') => k a w'
    | (Throw e, w') => (Throw e, w')
    end.

Declare Scope handler_scope.
Delimit Scope handler_scope with handler.
Notation "x <- m ;; k" := (and_then m (fun x => k))
  (at level 61, m at next level, right associativity) : handler_scope.
Notation "m ;; k" := (and_then m (fun _ => k))
  (at level 61, right associativity) : handler_scope.

Definition getState : Handler AppState := fun w => (Normal (state w), w).

Definition setState (f : AppState -> AppState) : Handler unit :=
  fun w => (Normal tt,
            {| state := f (state w); isAnalyzing := isAnalyzing w;
               showAlert := showAlert w; analyzeUrl_calls := analyzeUrl_calls w |}).

Definition setIsAnalyzing (b : bool) : Handler unit :=
  fun w => (Normal tt,
            {| state := state w; isAnalyzing := b;
               showAlert := showAlert w; analyzeUrl_calls := analyzeUrl_calls w |}).

Definition setShowAlert (b : bool) : Handler unit :=
  fun w => (Normal tt,
            {| state := state w; isAnalyzing := isAnalyzing w;
               showAlert := b; analyzeUrl_calls := analyzeUrl_calls w |}).

(** [await analyzeUrl(url)]: the call is recorded, its completion is the
    handler's. *)
Definition await_analyzeUrl (env : Env) (url : string) : Handler Partial.ScanResult :=
  fun w => (Gemini.analyzeUrl (fetch env) url,
            {| state := state w; isAnalyzing := isAnalyzing w;
               showAlert := showAlert w; analyzeUrl_calls := url :: analyzeUrl_calls w |}).

(** The result built in the blocked branch of [handleScan]. *)
Definition blockedResult (env : Env) (url : string) : ScanResult :=
  {| id := "blocked-" ++ Number_toString (Date_now env 0);
     url := url;
     timestamp := Date_now env 1;
     riskScore := 100;
     riskLevel := high_risk;
     indicators := ["This URL was previously blocked due to high security risks."];
     recommendation := "Do not attempt to access this URL.";
     analysis := "Automatically blocked by SecureScan AI protection system." |}.

(** The result built from the answer of [analyzeUrl]. *)
Definition newResult (env : Env) (url : string) (analysis : Partial.ScanResult)
  : ScanResult :=
  {| id := substring_from 7 (Math_random_toString36 env);
     url := url;
     timestamp := Date_now env 0;
     riskScore := or_number (Partial.riskScore analysis) 0;
     riskLevel := or_level (Partial.riskLevel analysis) suspicious;
     indicators := or_array (Partial.indicators analysis) [];
     recommendation := or_string (Partial.recommendation analysis) "";
     analysis := or_string (Partial.analysis analysis) "" |}.

(** The three updaters passed to [setState] by [handleScan]. *)
Definition show_blocked (r : ScanResult) (prev : AppState) : AppState :=
  {| screen := Screen.result;
     currentResult := Some r;
     history := history prev;
     blockedUrls := blockedUrls prev |}.

Definition show_scanning (prev : AppState) : AppState :=
  {| screen := Screen.scanning;
     currentResult := currentResult prev;
     history := history prev;
     blockedUrls := blockedUrls prev |}.

Definition show_result (r : ScanResult) (url : string) (isHighRisk : bool)
    (prev : AppState) : AppState :=
  {| screen := Screen.result;
     currentResult := Some r;
     history := slice0 50 (r :: history prev);
     blockedUrls :=
       if isHighRisk then Set_spread [] (blockedUrls prev ++ [url])
       else blockedUrls prev |}.

(** [const handleScan = async (url: string) => { ... }] *)
Definition handleScan (env : Env) (url : string) : Handler unit :=
  (st <- getState ;;
   if includes (blockedUrls st) url then
     setState (show_blocked (blockedResult env url)) ;;
     setShowAlert true
   else
     setState show_scanning ;;
     setIsAnalyzing true ;;
     analysis <- await_analyzeUrl env url ;;
     let r := newResult env url analysis in
     let isHighRisk := RiskLevel_eqb (riskLevel r) high_risk in
     setState (show_result r url isHighRisk) ;;
     setIsAnalyzing false ;;
     if isHighRisk then setShowAlert true else ret tt)%handler.

(** The world a call of [handleScan] leaves. *)
Definition after_handleScan (env : Env) (url : string) (w : World) : World :=
  snd (handleScan env url w).

(** [const navigateTo = (screen, result?) => { ... }]: an object is
    truthy, so [result || prev.currentResult] is [result] when it is
    given. *)
Definition navigateTo (screen : Screen.t) (result : option ScanResult)
  : Handler unit :=
  setState (fun prev =>
              {| screen := screen;
                 currentResult :=
                   match result with
                   | Some r => Some r
                   | None => currentResult prev
                   end;
                 history := history prev;
                 blockedUrls := blockedUrls prev |}).

(** The events that reach the component's state: a scan (with what the
    outside answers during it), a navigation, the dismissal of the
    alert. *)
Inductive Event : Type :=
| scan (env : Env) (url : string)
| navigate (screen : Screen.t) (result : option ScanResult)
| dismiss_alert.

Definition handle (e : Event) : Handler unit :=
  match e with
  | scan env url => handleScan env url
  | navigate screen result => navigateTo screen result
  | dismiss_alert => setShowAlert false
  end.

(** The world after a session of events, handled one after the other. *)
Definition session (es : list Event) (w : World) : World :=
  fold_left (fun w e => snd (handle e w)) es w.

(** *** The values of run time *)

(** What [JSON.parse] returns on a stored text, seen from the component
    that expects an array of [A]: the value [null], an array whose
    elements are as [AppState] declares them, or any other value (a
    boolean, a number, a string, an object, an array with other
    elements). *)
Inductive Stored (A : Type) : Type :=
| stored_null
| stored_array (l : list A)
| stored_other.
Arguments stored_null {A}.
Arguments stored_array {A} l.
Arguments stored_other {A}.

Module Runtime.

(** The body of a response as [response.json()] sees it at run time: a
    text that is not JSON, the value [null], or any other value, read at
    the properties of [Partial<ScanResult>] (a boolean, a number, a
    string or an array has none of them and reads as the empty
    object). *)
Inductive Body : Type :=
| not_json
| json_null
| json_value (o : Partial.ScanResult).

Inductive Fetch : Type :=
| rejects
| resolves (status : Z) (body : Body).

Definition await_fetch (f : Fetch) : Completion (Z * Body) :=
  match f with
  | rejects => Throw NetworkError
  | resolves status body => Normal (status, body)
  end.

(** [await response.json()]: [null] is a value like another. *)
Definition json (body : Body) : Completion (option Partial.ScanResult) :=
  match body with
  | not_json => Throw SyntaxError
  | json_null => Normal None
  | json_value o => Normal (Some o)
  end.

(** [analyzeUrl], returning what [response.json()] gave, [null]
    included. *)
Definition analyzeUrl (fetch : string -> Fetch) (url : string)
  : Completion (option Partial.ScanResult) :=
  try_catch
    (let* response := await_fetch (fetch url) in
     if negb (ok (fst response)) then Throw (NewError "Failed to analyze URL")
     else json (snd response))%js
    (fun error => Normal (Some Gemini.fallback)).

Definition await_analyzeUrl (fetch : string -> Fetch) (url : string)
  : Handler (option Partial.ScanResult) :=
  fun w => (analyzeUrl fetch url,
            {| state := state w; isAnalyzing := isAnalyzing w;
               showAlert := showAlert w; analyzeUrl_calls := url :: analyzeUrl_calls w |}).

(** [analysis.riskScore], the first property [handleScan] reads on the
    answer: the read throws on [null]. *)
Definition read_riskScore (analysis : option Partial.ScanResult)
  : Handler Partial.ScanResult :=
  fun w => (match analysis with
            | None => Throw TypeError
            | Some a => Normal a
            end, w).

(** [handleScan], where [fetch] tells what the network does at run time
    (the [fetch] of [env] is not used). *)
Definition handleScan (env : Env) (fetch : string -> Fetch) (url : string)
  : Handler unit :=
  (st <- getState ;;
   if includes (blockedUrls st) url then
     setState (show_blocked (blockedResult env url)) ;;
     setShowAlert true
   else
     setState show_scanning ;;
     setIsAnalyzing true ;;
     analysis <- await_analyzeUrl fetch url ;;
     a <- read_riskScore analysis ;;
     let r := newResult env url a in
     let isHighRisk := RiskLevel_eqb (riskLevel r) high_risk in
     setState (show_result r url isHighRisk) ;;
     setIsAnalyzing false ;;
     if isHighRisk then setShowAlert true else ret tt)%handler.

(** The run-time answers that the typed [FetchOutcome] has: all but a
    [null] body. *)
Definition typed (f : Fetch) : option FetchOutcome :=
  match f with
  | rejects => Some fetch_rejects
  | resolves status not_json => Some (fetch_resolves status body_malformed)
  | resolves status json_null => None
  | resolves status (json_value o) => Some (fetch_resolves status (body_json o))
  end.

(** The state as the initialiser returns it: [AppState] to the compiler,
    but its two arrays are what [JSON.parse] returned. *)
Record AppState : Type := {
  screen : Screen.t;
  currentResult : option ScanResult;
  history : Stored ScanResult;
  blockedUrls : Stored string
}.

End Runtime.

(** The state of run time as an [AppState], when its two components are
    arrays. *)
Definition typed_AppState (st : Runtime.AppState) : option AppState :=
  match Runtime.history st, Runtime.blockedUrls st with
  | stored_array h, stored_array b =>
      Some {| screen := Runtime.screen st;
              currentResult := Runtime.currentResult st;
              history := h; blockedUrls := b |}
  | _, _ => None
  end.

(** *** Rehydration *)

(** What [localStorage.getItem(key)] gives the initialiser: [null] or
    the empty string, a text on which [JSON.parse] throws, or a text
    that parses to a value. *)
Inductive Item (A : Type) : Type :=
| item_absent
| item_unparsable
| item_json (v : A).
Arguments item_absent {A}.
Arguments item_unparsable {A}.
Arguments item_json {A} v.

(** The browser storage: not accessible ([getItem] throws), or holding
    the two keys [securescan_history] and [securescan_blocked]. *)
Inductive LocalStorage : Type :=
| storage_denied
| storage (securescan_history : Item (Stored ScanResult))
          (securescan_blocked : Item (Stored string)).

Definition getItem_history (ls : LocalStorage) : Completion (Item (Stored ScanResult)) :=
  match ls with
  | storage_denied => Throw SecurityError
  | storage h _ => Normal h
  end.

Definition getItem_blocked (ls : LocalStorage) : Completion (Item (Stored string)) :=
  match ls with
  | storage_denied => Throw SecurityError
  | storage _ b => Normal b
  end.

(** [saved ? JSON.parse(saved) : []]: what [JSON.parse] returns is
    taken as it is. *)
Definition parse_or_empty {A} (saved : Item (Stored A)) : Completion (Stored A) :=
  match saved with
  | item_absent => Normal (stored_array [])
  | item_unparsable => Throw SyntaxError
  | item_json v => Normal v
  end.

(** The initialiser passed to [useState<AppState>] in [AppContent]. *)
Definition initialState (ls : LocalStorage) : Completion Runtime.AppState :=
  try_catch
    (let* savedHistory := getItem_history ls in
     let* savedBlocked := getItem_blocked ls in
     let* h := parse_or_empty savedHistory in
     let* b := parse_or_empty savedBlocked in
     Normal {| Runtime.screen := Screen.home; Runtime.currentResult := None;
               Runtime.history := h; Runtime.blockedUrls := b |})%js
    (fun error =>
       Normal {| Runtime.screen := Screen.home; Runtime.currentResult := None;
                 Runtime.history := stored_array [];
                 Runtime.blockedUrls := stored_array [] |}).

(** [state.history.length], which [renderHome] reads on the first
    render ([state.history.length > 0 && ...]): a property read throws on
    [null], and on no other value that [JSON.parse] returns. *)
Definition read_history_length (st : Runtime.AppState) : Completion unit :=
  match Runtime.history st with
  | stored_null => Throw TypeError
  | stored_array _ => Normal tt
  | stored_other => Normal tt
  end.

(** *** Recording a run of results *)

(** The state after the results [rs] have been recorded one after the
    other, oldest first, each by the updater [handleScan] passes to
    [setState]. *)
Definition record_all (rs : list ScanResult) (st : AppState) : AppState :=
  fold_left
    (fun st r => show_result r (url r) (RiskLevel_eqb (riskLevel r) high_risk) st)
    rs st.

(** ** Sample inputs *)

(** An environment whose clock starts at a fixed instant and whose
    network answers every request with [f]. *)
Definition example_env (f : FetchOutcome) : Env :=
  {| Date_now := fun k => 1700000000000 + Z.of_nat k;
     Math_random_toString36 := "0.4fzyo82mvyr";
     fetch := fun _ => f |}.

Definition example_world (h : list ScanResult) (b : list string) : World :=
  {| state := {| screen := Screen.home; currentResult := None;
                 history := h; blockedUrls := b |};
     isAnalyzing := false; showAlert := false; analyzeUrl_calls := [] |}.

(** A response that omits [recommendation] (and [riskLevel]). *)
Definition example_response : Partial.ScanResult :=
  {| Partial.id := None; Partial.url := None; Partial.timestamp := None;
     Partial.riskScore := Some 85;
     Partial.riskLevel := None;
     Partial.indicators := Some ["lookalike domain"];
     Partial.recommendation := None;
     Partial.analysis := Some "..." |}.

(** The [k]-th result of a run of scans of distinct URLs. *)
Definition example_result (k : nat) : ScanResult :=
  {| id := Number_toString (Z.of_nat k);
     url := "http://example.com/" ++ Number_toString (Z.of_nat k);
     timestamp := 1700000000000 + Z.of_nat k;
     riskScore := 0;
     riskLevel := safe;
     indicators := [];
     recommendation := "";
     analysis := "" |}.

(** ** utils.ts and HistoryItem.tsx: how a level is shown *)

(** The string a [RiskLevel] is at run time. *)
Definition RiskLevel_string (l : RiskLevel) : string :=
  match l with
  | safe => "safe"
  | suspicious => "suspicious"
  | high_risk => "high-risk"
  end.

(** [export function getRiskColor(level: string)] *)
Definition getRiskColor (level : string) : string :=
  if (level =? "safe")%string then "#00C853"
  else if (level =? "suspicious")%string then "#FFD600"
  else if (level =? "high-risk")%string then "#D50000"
  else "#8E9299".

(** The icon [HistoryItem] picks for a scan. *)
Inductive Icon : Type := ShieldCheck | ShieldQuestion | ShieldAlert.

Definition HistoryItem_Icon (riskLevel : string) : Icon :=
  if (riskLevel =? "safe")%string then ShieldCheck
  else if (riskLevel =? "suspicious")%string then ShieldQuestion
  else ShieldAlert.

(** ** server.ts: the lazily created AI client *)

(** [new GoogleGenAI({ apiKey })] *)
Record GoogleGenAI : Type := { apiKey : string }.

(** [function getAI()], on the value of [process.env.GEMINI_API_KEY] and
    the module variable [aiInstance]; it returns with the new value of
    [aiInstance]. *)
Definition getAI (GEMINI_API_KEY : option string) (aiInstance : option GoogleGenAI)
  : Completion GoogleGenAI * option GoogleGenAI :=
  match aiInstance with
  | Some ai => (Normal ai, aiInstance)
  | None =>
      match GEMINI_API_KEY with
      | None => (Throw (NewError "GEMINI_API_KEY is not defined"), None)
      | Some key =>
          if (key =? "")%string
          then (Throw (NewError "GEMINI_API_KEY is not defined"), None)
          else (Normal {| apiKey := key |}, Some {| apiKey := key |})
      end
  end.

(** Successive calls of [getAI], one for each value the environment
    variable has at the time of the call: the completions, and the last
    value of [aiInstance]. *)
Fixpoint getAI_calls (keys : list (option string)) (aiInstance : option GoogleGenAI)
  : list (Completion GoogleGenAI) * option GoogleGenAI :=
  match keys with
  | [] => ([], aiInstance)
  | key :: keys' =>
      let (c, aiInstance') := getAI key aiInstance in
      let (cs, last) := getAI_calls keys' aiInstance' in
      (c :: cs, last)
  end.

(** ** components/Scanner.tsx *)

(** What [navigator.mediaDevices.getUserMedia] does: it resolves to a
    stream, or rejects with an error that has a [name] and a
    [message]. *)
Inductive GetUserMedia : Type :=
| media_stream (stream : nat)
| media_rejects (name : string) (message : string).

(** What [startCamera] finds: [window.isSecureContext], whether
    [navigator.mediaDevices.getUserMedia] exists, what the request for
    the environment-facing camera and the request for any camera do, and
    whether [videoRef.current] is set. *)
Record Camera : Type := {
  isSecureContext : bool;
  getUserMedia_exists : bool;
  getUserMedia_environment : GetUserMedia;
  getUserMedia_any : GetUserMedia;
  videoRef_current : bool
}.

(** The state of the scanner after [startCamera]: its two state hooks,
    the stream it holds, whether the first [tick] was requested, and the
    number of [getUserMedia] requests it made. *)
Record ScannerState : Type := {
  error : option string;
  isPermissionDenied : bool;
  stream : option nat;
  tick_requested : bool;
  getUserMedia_requests : nat
}.

(** The [catch (err)] branch of [startCamera]: the value of
    [isPermissionDenied] and the message passed to [setError]. *)
Definition camera_error (name message : string) : bool * string :=
  if ((name =? "NotAllowedError") || (name =? "PermissionDeniedError"))%string then
    (true, "Camera access was denied. We need your permission to scan QR codes.")
  else if ((name =? "NotFoundError") || (name =? "DevicesNotFoundError"))%string then
    (false, "No camera found on this device. Please ensure your camera is connected.")
  else if ((name =? "NotReadableError") || (name =? "TrackStartError"))%string then
    (false, "Camera is already in use by another application. Please close other apps using the camera and try again.")
  else if (name =? "OverconstrainedError")%string then
    (false, "The requested camera constraints could not be satisfied. Trying fallback...")
  else
    (false, "An unexpected error occurred: " ++ or_string (Some message) "Unknown error").

(** [const startCamera = async () => { ... }] *)
Definition startCamera (c : Camera) : ScannerState :=
  if negb (isSecureContext c) then
    {| error := Some "Camera access requires a secure connection (HTTPS). Please ensure you are accessing the site via a secure URL.";
       isPermissionDenied := false; stream := None;
       tick_requested := false; getUserMedia_requests := 0 |}
  else if negb (getUserMedia_exists c) then
    {| error := Some "Camera API is not supported in this browser. Please use a modern browser like Chrome or Safari.";
       isPermissionDenied := false; stream := None;
       tick_requested := false; getUserMedia_requests := 0 |}
  else
    match getUserMedia_environment c with
    | media_stream s =>
        {| error := None; isPermissionDenied := false; stream := Some s;
           tick_requested := videoRef_current c; getUserMedia_requests := 1 |}
    | media_rejects _ _ =>
        match getUserMedia_any c with
        | media_stream s =>
            {| error := None; isPermissionDenied := false; stream := Some s;
               tick_requested := videoRef_current c; getUserMedia_requests := 2 |}
        | media_rejects name message =>
            {| error := Some (snd (camera_error name message));
               isPermissionDenied := fst (camera_error name message);
               stream := None;
               tick_requested := false; getUserMedia_requests := 2 |}
        end
    end.

(** What one [tick] finds: whether the video has enough data, whether
    the canvas and its 2d context are there, and what [jsQR] returns on
    the frame (the [data] of the code, or [null]). *)
Record Frame : Type := {
  HAVE_ENOUGH_DATA : bool;
  canvasRef_current : bool;
  getContext_2d : bool;
  jsQR : option string
}.

(** [const tick = () => { ... }]: the data passed to [onScan], or
    nothing when the next frame is requested instead. *)
Definition tick (f : Frame) : option string :=
  if HAVE_ENOUGH_DATA f then
    if canvasRef_current f then
      if getContext_2d f then jsQR f else None
    else None
  else None.

(** The loop of [tick] over the frames that come, until [onScan] is
    called: the data it is called with, and the frames left unread. *)
Fixpoint ticks (frames : list Frame) : option string * list Frame :=
  match frames with
  | [] => (None, [])
  | f :: frames' =>
      match tick f with
      | Some data => (Some data, frames')
      | None => ticks frames'
      end
  end.

(** ** App.tsx: the rest of the component *)

(** The button at the foot of [renderResult]: [window.open(result.url)]
    behind "Open Secure Link" when the level is [safe], "Report & Close"
    otherwise; nothing is rendered without a current result. *)
Inductive ResultAction : Type :=
| open_secure_link (url : string)
| report_and_close.

Definition renderResult_action (st : AppState) : option ResultAction :=
  match currentResult st with
  | None => None
  | Some result =>
      Some (if RiskLevel_eqb (riskLevel result) safe
            then open_secure_link (url result)
            else report_and_close)
  end.

(** The [onSubmit] handler of the manual-entry form:
    [if (url) handleScan(url)] on the value of the [url] field. *)
Definition onSubmit (env : Env) (url : option string) : Handler unit :=
  match url with
  | None => ret tt
  | Some u => if (u =? "")%string then ret tt else handleScan env u
  end.

(** * Part II: properties *)

(** ** Basic facts *)

Lemma includes_In (l : list string) (x : string) :
  includes l x = true <-> In x l.
Proof.
  unfold includes. rewrite existsb_exists. split.
  - intros [y [Hy Heq]]. apply String.eqb_eq in Heq. now subst.
  - intro H. exists x. split; [assumption | apply String.eqb_refl].
Qed.

Lemma or_number_default (x : option Z) :
  or_number x 0 = match x with Some n => n | None => 0 end.
Proof.
  destruct x as [n|]; simpl; [|reflexivity].
  destruct (Z.eqb_spec n 0); congruence.
Qed.

Lemma or_string_default (x : option string) :
  or_string x "" = match x with Some s => s | None => "" end.
Proof.
  destruct x as [s|]; simpl; [|reflexivity].
  destruct (String.eqb_spec s ""); congruence.
Qed.

(** ** The risk classifier *)

Section Classifier.

Variable classify : Z -> RiskLevel.
Hypothesis classify_unfold : forall s,
  classify s = if s <? 30 then safe else if s <? 70 then suspicious else high_risk.

Lemma classify_safe s : classify s = safe <-> s < 30.
Proof.
  rewrite classify_unfold.
  destruct (Z.ltb_spec s 30); [tauto|].
  destruct (Z.ltb_spec s 70); split; (discriminate || lia).
Qed.

Lemma classify_suspicious s : classify s = suspicious <-> 30 <= s < 70.
Proof.
  rewrite classify_unfold.
  destruct (Z.ltb_spec s 30); [split; (discriminate || lia)|].
  destruct (Z.ltb_spec s 70); split; (discriminate || lia || tauto).
Qed.

Lemma classify_high_risk s : classify s = high_risk <-> s >= 70.
Proof.
  rewrite classify_unfold.
  destruct (Z.ltb_spec s 30); [split; (discriminate || lia)|].
  destruct (Z.ltb_spec s 70); split; (discriminate || lia || tauto).
Qed.

End Classifier.

(** C2. For every integer score the classifier (either copy) answers
    [safe] exactly below 30, [suspicious] exactly on 30..69 and
    [high-risk] exactly from 70 on; the four boundary scores 29, 30, 69
    and 70 classify as safe, suspicious, suspicious and high-risk. *)
Theorem getRiskLevel_thresholds :
  (forall s : Z,
      (Utils.getRiskLevel s = safe <-> s < 30) /\
      (Utils.getRiskLevel s = suspicious <-> 30 <= s < 70) /\
      (Utils.getRiskLevel s = high_risk <-> s >= 70)) /\
  (forall s : Z,
      (Server.getRiskLevel s = safe <-> s < 30) /\
      (Server.getRiskLevel s = suspicious <-> 30 <= s < 70) /\
      (Server.getRiskLevel s = high_risk <-> s >= 70)) /\
  map Utils.getRiskLevel [29; 30; 69; 70]
    = [safe; suspicious; suspicious; high_risk] /\
  map Server.getRiskLevel [29; 30; 69; 70]
    = [safe; suspicious; suspicious; high_risk].
Proof.
  split; [|split; [|split; reflexivity]]; intro s.
  - split; [|split].
    + apply (classify_safe Utils.getRiskLevel). reflexivity.
    + apply (classify_suspicious Utils.getRiskLevel). reflexivity.
    + apply (classify_high_risk Utils.getRiskLevel). reflexivity.
  - split; [|split].
    + apply (classify_safe Server.getRiskLevel). reflexivity.
    + apply (classify_suspicious Server.getRiskLevel). reflexivity.
    + apply (classify_high_risk Server.getRiskLevel). reflexivity.
Qed.

(** C9. The client-side and the server-side copy of the classifier are
    the same function. *)
Theorem getRiskLevel_client_server_agree :
  forall s : Z, Utils.getRiskLevel s = Server.getRiskLevel s.
Proof.
  intro s. unfold Utils.getRiskLevel, Server.getRiskLevel.
  destruct (s <? 30); [reflexivity|]. destruct (s <? 70); reflexivity.
Qed.

(** ** The assessment client *)

Lemma analyzeUrl_rejects fetch u :
  fetch u = fetch_rejects ->
  Gemini.analyzeUrl fetch u = Normal Gemini.fallback.
Proof. intro H. unfold Gemini.analyzeUrl. now rewrite H. Qed.

Lemma analyzeUrl_not_ok fetch u status body :
  fetch u = fetch_resolves status body -> ok status = false ->
  Gemini.analyzeUrl fetch u = Normal Gemini.fallback.
Proof. intros H Hok. unfold Gemini.analyzeUrl. rewrite H. simpl. now rewrite Hok. Qed.

Lemma analyzeUrl_malformed fetch u status :
  fetch u = fetch_resolves status body_malformed ->
  Gemini.analyzeUrl fetch u = Normal Gemini.fallback.
Proof.
  intro H. unfold Gemini.analyzeUrl. rewrite H. simpl.
  now destruct (ok status).
Qed.

Lemma analyzeUrl_ok fetch u status o :
  fetch u = fetch_resolves status (body_json o) -> ok status = true ->
  Gemini.analyzeUrl fetch u = Normal o.
Proof. intros H Hok. unfold Gemini.analyzeUrl. rewrite H. simpl. now rewrite Hok. Qed.

Lemma analyzeUrl_returns fetch u :
  exists o, Gemini.analyzeUrl fetch u = Normal o.
Proof.
  unfold Gemini.analyzeUrl.
  destruct (fetch u) as [|status [|o]]; simpl.
  - now exists Gemini.fallback.
  - exists Gemini.fallback. now destruct (ok status).
  - destruct (ok status); simpl; eauto.
Qed.

(** C6. Whenever the outbound call of the assessment client fails (the
    transport rejects, the response has a status outside 200..299, or
    its body is not JSON) [analyzeUrl] returns the fixed degraded-mode
    record, whose five properties are the literals below; and on no
    answer of the network does [analyzeUrl] throw. *)
Theorem analyzeUrl_degraded_mode :
  (forall fetch u,
      fetch u = fetch_rejects \/
      (exists status body, fetch u = fetch_resolves status body /\ ok status = false) \/
      (exists status, fetch u = fetch_resolves status body_malformed) ->
      Gemini.analyzeUrl fetch u = Normal Gemini.fallback) /\
  (forall fetch u, exists o, Gemini.analyzeUrl fetch u = Normal o) /\
  Partial.riskScore Gemini.fallback = Some 50 /\
  Partial.riskLevel Gemini.fallback = Some suspicious /\
  Partial.indicators Gemini.fallback = Some ["Analysis failed due to network error"] /\
  Partial.recommendation Gemini.fallback
    = Some "Proceed with extreme caution. Manual verification required." /\
  Partial.analysis Gemini.fallback
    = Some "We were unable to complete the AI-powered deep scan at this time." /\
  Partial.id Gemini.fallback = None /\
  Partial.url Gemini.fallback = None /\
  Partial.timestamp Gemini.fallback = None.
Proof.
  split; [|split; [exact analyzeUrl_returns | repeat split]].
  intros fetch u [H | [(status & body & H & Hok) | (status & H)]].
  - now apply analyzeUrl_rejects.
  - now apply analyzeUrl_not_ok with status body.
  - now apply analyzeUrl_malformed with status.
Qed.

(** The three kinds of failure of C6, each at a concrete network. *)
Lemma analyzeUrl_degraded_mode_witness :
  Gemini.analyzeUrl (fun _ => fetch_rejects) "http://example.com"
    = Normal Gemini.fallback /\
  Gemini.analyzeUrl (fun _ => fetch_resolves 500 (body_json Partial.empty))
    "http://example.com" = Normal Gemini.fallback /\
  Gemini.analyzeUrl (fun _ => fetch_resolves 200 body_malformed)
    "http://example.com" = Normal Gemini.fallback.
Proof.
  pose proof analyzeUrl_degraded_mode as [H _].
  split; [|split]; apply H.
  - left. reflexivity.
  - right. left. exists 500, (body_json Partial.empty). split; reflexivity.
  - right. right. exists 200. reflexivity.
Defined.

(** ** The assessment service *)

Lemma analyze_failure u g :
  Server.url_missing u = false ->
  g = Server.generate_throws \/
  g = Server.generate_text Server.parse_throws \/
  g = Server.generate_text Server.parse_null ->
  Server.analyze u g
    = Normal {| Server.status := 500;
                Server.body := Server.result_payload Server.fallback |}.
Proof.
  intros Hu Hg. unfold Server.analyze. rewrite Hu.
  destruct Hg as [-> | [-> | ->]]; reflexivity.
Qed.

(** C4, as the code has it. When the AI-backend call throws or its output
    does not parse (or parses to [null]), the service answers with status
    500 and the server's own fixed payload: [riskScore] 50, [riskLevel]
    suspicious, the indicator "Analysis failed due to server error", and
    the same recommendation and analysis as the client's fallback.  The
    two payloads agree on every property but [indicators]. *)
Theorem analyze_failure_payload :
  forall u g,
    Server.url_missing u = false ->
    g = Server.generate_throws \/
    g = Server.generate_text Server.parse_throws \/
    g = Server.generate_text Server.parse_null ->
    Server.analyze u g
      = Normal {| Server.status := 500;
                  Server.body := Server.result_payload Server.fallback |} /\
    Partial.riskScore Server.fallback = Some 50 /\
    Partial.riskLevel Server.fallback = Some suspicious /\
    Partial.indicators Server.fallback = Some ["Analysis failed due to server error"] /\
    Partial.recommendation Server.fallback
      = Some "Proceed with extreme caution. Manual verification required." /\
    Partial.analysis Server.fallback
      = Some "We were unable to complete the AI-powered deep scan at this time." /\
    Partial.riskScore Server.fallback = Partial.riskScore Gemini.fallback /\
    Partial.riskLevel Server.fallback = Partial.riskLevel Gemini.fallback /\
    Partial.recommendation Server.fallback = Partial.recommendation Gemini.fallback /\
    Partial.analysis Server.fallback = Partial.analysis Gemini.fallback /\
    Partial.id Server.fallback = Partial.id Gemini.fallback /\
    Partial.url Server.fallback = Partial.url Gemini.fallback /\
    Partial.timestamp Server.fallback = Partial.timestamp Gemini.fallback.
Proof.
  intros u g Hu Hg. split; [now apply analyze_failure | repeat split].
Qed.

(** C4 at a backend text that does not parse. *)
Lemma analyze_failure_payload_witness :
  Server.analyze (Some "http://example.com") (Server.generate_text Server.parse_throws)
    = Normal {| Server.status := 500;
                Server.body := Server.result_payload Server.fallback |}.
Proof.
  apply (analyze_failure_payload (Some "http://example.com")
           (Server.generate_text Server.parse_throws)).
  - reflexivity.
  - right. left. reflexivity.
Defined.

(** C4 as stated fails: when the AI-backend call throws, the body of the
    500 answer is not the client's fallback, its indicator says "server
    error" where the client's says "network error". *)
Lemma analyze_failure_not_client_fallback :
  exists o,
    Server.analyze (Some "http://example.com") Server.generate_throws
      = Normal {| Server.status := 500; Server.body := Server.result_payload o |} /\
    Partial.indicators o = Some ["Analysis failed due to server error"] /\
    Partial.indicators Gemini.fallback = Some ["Analysis failed due to network error"] /\
    o <> Gemini.fallback.
Proof.
  exists Server.fallback. repeat split. discriminate.
Qed.

(** ** The client in front of the service *)

Lemma serve_failure u g :
  g = Server.generate_throws \/
  g = Server.generate_text Server.parse_throws \/
  g = Server.generate_text Server.parse_null ->
  exists status body, Server.serve u g = fetch_resolves status body /\ ok status = false.
Proof.
  intro Hg. unfold Server.serve.
  destruct (Server.url_missing (Some u)) eqn:Hu.
  - unfold Server.analyze. rewrite Hu. simpl. eauto.
  - rewrite (analyze_failure _ _ Hu Hg). simpl. eauto.
Qed.

Lemma serve_no_text u :
  u <> "" ->
  Server.serve u Server.generate_no_text
    = fetch_resolves 200
        (body_json {| Partial.id := None; Partial.url := None;
                      Partial.timestamp := None; Partial.riskScore := None;
                      Partial.riskLevel := Some safe;
                      Partial.indicators := None;
                      Partial.recommendation := None;
                      Partial.analysis := None |}).
Proof.
  intro Hu. unfold Server.serve, Server.analyze. simpl.
  destruct (String.eqb_spec u ""); [contradiction | reflexivity].
Qed.

(** C5, as the code has it. With the client in front of the service: if
    the text of the AI backend does not parse (or parses to [null]), the
    record [analyzeUrl] returns is the client's fixed degraded-mode
    record.  If the text is empty the service reads it as the empty
    object and answers 200, and the record [analyzeUrl] returns for a
    non-empty URL has [riskLevel] safe and no other property. *)
Theorem analyzeUrl_on_malformed_backend :
  (forall u g,
      g = Server.generate_text Server.parse_throws \/
      g = Server.generate_text Server.parse_null ->
      Gemini.analyzeUrl (fun x => Server.serve x g) u = Normal Gemini.fallback) /\
  (forall u,
      u <> "" ->
      Gemini.analyzeUrl (fun x => Server.serve x Server.generate_no_text) u
        = Normal {| Partial.id := None; Partial.url := None;
                    Partial.timestamp := None; Partial.riskScore := None;
                    Partial.riskLevel := Some safe;
                    Partial.indicators := None;
                    Partial.recommendation := None;
                    Partial.analysis := None |}).
Proof.
  split.
  - intros u g Hg.
    destruct (serve_failure u g) as (status & body & Hs & Hok); [tauto|].
    now apply analyzeUrl_not_ok with status body.
  - intros u Hu. eapply analyzeUrl_ok; [now apply serve_no_text | reflexivity].
Qed.

(** C5 at a backend text that does not parse, and at an empty one. *)
Lemma analyzeUrl_on_malformed_backend_witness :
  Gemini.analyzeUrl
    (fun x => Server.serve x (Server.generate_text Server.parse_throws))
    "http://example.com" = Normal Gemini.fallback /\
  Gemini.analyzeUrl (fun x => Server.serve x Server.generate_no_text)
    "http://example.com"
    = Normal {| Partial.id := None; Partial.url := None;
                Partial.timestamp := None; Partial.riskScore := None;
                Partial.riskLevel := Some safe;
                Partial.indicators := None;
                Partial.recommendation := None;
                Partial.analysis := None |}.
Proof.
  pose proof analyzeUrl_on_malformed_backend as [Hm He].
  split.
  - apply Hm. left. reflexivity.
  - apply He. discriminate.
Defined.

(** C5 as stated fails on an empty body: the record the client's caller
    sees is not the degraded-mode literal, it has no [riskScore] and its
    [riskLevel] is safe. *)
Lemma analyzeUrl_on_empty_backend_body :
  exists o,
    Gemini.analyzeUrl (fun x => Server.serve x Server.generate_no_text)
      "http://example.com" = Normal o /\
    Partial.riskScore o = None /\
    Partial.riskLevel o = Some safe /\
    Partial.indicators o = None /\
    o <> Gemini.fallback.
Proof.
  eexists. split; [reflexivity|]. repeat split. discriminate.
Qed.

(** ** The scan pipeline *)

Lemma handleScan_blocked_world env u w :
  includes (blockedUrls (state w)) u = true ->
  handleScan env u w
  = (Normal tt,
     {| state := show_blocked (blockedResult env u) (state w);
        isAnalyzing := isAnalyzing w;
        showAlert := true;
        analyzeUrl_calls := analyzeUrl_calls w |}).
Proof.
  intro H. unfold handleScan, and_then, getState. simpl. rewrite H. reflexivity.
Qed.

Lemma handleScan_fresh_world env u w a :
  includes (blockedUrls (state w)) u = false ->
  Gemini.analyzeUrl (fetch env) u = Normal a ->
  handleScan env u w
  = (Normal tt,
     let r := newResult env u a in
     let isHighRisk := RiskLevel_eqb (riskLevel r) high_risk in
     {| state := show_result r u isHighRisk (show_scanning (state w));
        isAnalyzing := false;
        showAlert := if isHighRisk then true else showAlert w;
        analyzeUrl_calls := u :: analyzeUrl_calls w |}).
Proof.
  intros H Ha. unfold handleScan, and_then, getState. simpl. rewrite H.
  unfold await_analyzeUrl. rewrite Ha. simpl.
  destruct (RiskLevel_eqb (or_level (Partial.riskLevel a) suspicious) high_risk);
    reflexivity.
Qed.

(** C1. For a URL already in [blockedUrls], [handleScan] completes and
    shows a result with [riskScore] 100, [riskLevel] high-risk and the
    fixed indicator; it makes no call of [analyzeUrl], and leaves
    [history] and [blockedUrls] as they were. *)
Theorem handleScan_blocked_url :
  forall env u w,
    In u (blockedUrls (state w)) ->
    let w' := after_handleScan env u w in
    fst (handleScan env u w) = Normal tt /\
    (exists r,
        currentResult (state w') = Some r /\
        url r = u /\
        riskScore r = 100 /\
        riskLevel r = high_risk /\
        indicators r
          = ["This URL was previously blocked due to high security risks."]) /\
    analyzeUrl_calls w' = analyzeUrl_calls w /\
    history (state w') = history (state w) /\
    blockedUrls (state w') = blockedUrls (state w) /\
    screen (state w') = Screen.result /\
    showAlert w' = true.
Proof.
  intros env u w Hin w'. subst w'. unfold after_handleScan.
  rewrite handleScan_blocked_world by now apply includes_In.
  simpl. repeat split. eexists. repeat split.
Qed.

(** C1 at a block list of one URL. *)
Lemma handleScan_blocked_url_witness :
  let w := example_world [] ["http://evil.example"] in
  let w' := after_handleScan (example_env fetch_rejects) "http://evil.example" w in
  In "http://evil.example" (blockedUrls (state w)) /\
  analyzeUrl_calls w' = [] /\
  history (state w') = [] /\
  blockedUrls (state w') = ["http://evil.example"].
Proof.
  assert (Hin : In "http://evil.example"
                  (blockedUrls (state (example_world [] ["http://evil.example"]))))
    by (left; reflexivity).
  split; [exact Hin|].
  pose proof (handleScan_blocked_url (example_env fetch_rejects)
                "http://evil.example" _ Hin) as (_ & _ & Hc & Hh & Hb & _).
  repeat split; assumption.
Defined.

(** C7. For every answer [a] of the assessment client, the result the
    pipeline builds on a URL that is not blocked takes each property from
    [a] and substitutes a fixed default for a missing one: 0 for
    [riskScore], suspicious for [riskLevel], the empty array for
    [indicators], the empty string for [recommendation] and [analysis]. *)
Theorem handleScan_defaults :
  forall env u w a,
    includes (blockedUrls (state w)) u = false ->
    Gemini.analyzeUrl (fetch env) u = Normal a ->
    exists r,
      currentResult (state (after_handleScan env u w)) = Some r /\
      r = newResult env u a /\
      url r = u /\
      riskScore r = match Partial.riskScore a with Some n => n | None => 0 end /\
      riskLevel r = match Partial.riskLevel a with Some l => l | None => suspicious end /\
      indicators r = match Partial.indicators a with Some l => l | None => [] end /\
      recommendation r = match Partial.recommendation a with Some s => s | None => "" end /\
      analysis r = match Partial.analysis a with Some s => s | None => "" end.
Proof.
  intros env u w a Hb Ha. exists (newResult env u a).
  unfold after_handleScan. rewrite (handleScan_fresh_world env u w a Hb Ha).
  simpl. repeat split.
  - apply or_number_default.
  - apply or_string_default.
  - apply or_string_default.
Qed.

(** C7 at a response without [recommendation] and [riskLevel]. *)
Lemma handleScan_defaults_witness :
  exists r,
    currentResult
      (state (after_handleScan
                (example_env (fetch_resolves 200 (body_json example_response)))
                "http://example.com" (example_world [] [])))
      = Some r /\
    riskScore r = 85 /\
    riskLevel r = suspicious /\
    indicators r = ["lookalike domain"] /\
    recommendation r = "".
Proof.
  destruct (handleScan_defaults
              (example_env (fetch_resolves 200 (body_json example_response)))
              "http://example.com" (example_world [] []) example_response
              eq_refl eq_refl)
    as (r & Hc & _ & _ & Hs & Hl & Hi & Hr & _).
  exists r. repeat split; assumption.
Defined.

(** ** Level and score *)

Lemma analyze_200_agrees u g o :
  Server.analyze u g
    = Normal {| Server.status := 200; Server.body := Server.result_payload o |} ->
  Partial.riskLevel o
    = Some (Server.getRiskLevel
              match Partial.riskScore o with Some n => n | None => 0 end).
Proof.
  unfold Server.analyze. destruct (Server.url_missing u); [discriminate|].
  destruct g as [| |[| |d]]; simpl; try discriminate;
    intro H; injection H as <-; simpl; now rewrite ?or_number_default.
Qed.

Lemma serve_ok_agrees u g status o :
  Server.serve u g = fetch_resolves status (body_json o) ->
  ok status = true ->
  Partial.riskLevel o
    = Some (Server.getRiskLevel
              match Partial.riskScore o with Some n => n | None => 0 end).
Proof.
  unfold Server.serve.
  destruct (Server.analyze (Some u) g) as [[st [e|o']]|e] eqn:Ha; simpl;
    try discriminate.
  - intros H Hok. injection H as <- <-.
    unfold Server.analyze in Ha.
    destruct (Server.url_missing (Some u)).
    + injection Ha as <-. discriminate.
    + destruct g as [| |[| |d]]; simpl in Ha; discriminate.
  - intros H Hok. injection H as <- <-.
    unfold Server.analyze in Ha.
    destruct (Server.url_missing (Some u)); [discriminate|].
    destruct g as [| |[| |d]]; simpl in Ha; injection Ha as <- <-;
      try discriminate; simpl; now rewrite ?or_number_default.
Qed.

Lemma newResult_agrees env u a :
  Partial.riskLevel a
    = Some (Utils.getRiskLevel
              match Partial.riskScore a with Some n => n | None => 0 end) ->
  Utils.getRiskLevel (riskScore (newResult env u a)) = riskLevel (newResult env u a).
Proof.
  intro H. simpl. rewrite H, or_number_default. reflexivity.
Qed.

Lemma served_answer_agrees fetch u a :
  fetch u = fetch_rejects \/ (exists g, fetch u = Server.serve u g) ->
  Gemini.analyzeUrl fetch u = Normal a ->
  Partial.riskLevel a
    = Some (Utils.getRiskLevel
              match Partial.riskScore a with Some n => n | None => 0 end).
Proof.
  intros [H | [g H]] Ha.
  - rewrite (analyzeUrl_rejects _ _ H) in Ha. injection Ha as <-. reflexivity.
  - destruct (Server.serve u g) as [|status [|o]] eqn:Hs.
    + rewrite (analyzeUrl_rejects _ _ H) in Ha. injection Ha as <-. reflexivity.
    + rewrite (analyzeUrl_malformed _ _ _ H) in Ha. injection Ha as <-. reflexivity.
    + destruct (ok status) eqn:Hok.
      * rewrite (analyzeUrl_ok _ _ _ _ H Hok) in Ha. injection Ha as <-.
        apply (serve_ok_agrees _ _ _ _ Hs Hok).
      * rewrite (analyzeUrl_not_ok _ _ _ _ H Hok) in Ha. injection Ha as <-.
        reflexivity.
Qed.

(** C3, as the code has it. The level agrees with the classifier applied
    to the score on the success answer of the service (a missing score
    counting as 0), on both degraded-mode payloads and on the result of
    the blocked branch; the client copies the level of the answer, so the
    result it builds agrees whenever the answer does, and for an answer
    without a level it is suspicious, which agrees exactly for the scores
    30..69; hence every result [handleScan] creates when the request is
    answered by this service, or not answered at all, agrees. *)
Theorem riskLevel_agrees_with_riskScore :
  (forall u g o,
      Server.analyze u g
        = Normal {| Server.status := 200; Server.body := Server.result_payload o |} ->
      Partial.riskLevel o
        = Some (Server.getRiskLevel
                  match Partial.riskScore o with Some n => n | None => 0 end)) /\
  (forall f,
      f = Gemini.fallback \/ f = Server.fallback ->
      exists n, Partial.riskScore f = Some n /\
                Partial.riskLevel f = Some (Utils.getRiskLevel n)) /\
  (forall env u,
      Utils.getRiskLevel (riskScore (blockedResult env u))
        = riskLevel (blockedResult env u)) /\
  (forall env u a,
      Partial.riskLevel a
        = Some (Utils.getRiskLevel
                  match Partial.riskScore a with Some n => n | None => 0 end) ->
      Utils.getRiskLevel (riskScore (newResult env u a))
        = riskLevel (newResult env u a)) /\
  (forall env u a,
      Partial.riskLevel a = None ->
      riskLevel (newResult env u a) = suspicious /\
      (Utils.getRiskLevel (riskScore (newResult env u a))
         = riskLevel (newResult env u a)
       <-> 30 <= riskScore (newResult env u a) < 70)) /\
  (forall env u w,
      fetch env u = fetch_rejects \/ (exists g, fetch env u = Server.serve u g) ->
      exists r,
        currentResult (state (after_handleScan env u w)) = Some r /\
        Utils.getRiskLevel (riskScore r) = riskLevel r).
Proof.
  split; [exact analyze_200_agrees|].
  split; [intros f [-> | ->]; exists 50; split; reflexivity|].
  split; [reflexivity|].
  split; [exact newResult_agrees|].
  split.
  { intros env u a Ha. cbn [newResult riskLevel riskScore]. rewrite Ha.
    split; [reflexivity|].
    apply (classify_suspicious Utils.getRiskLevel). reflexivity. }
  intros env u w Hf. unfold after_handleScan.
  destruct (includes (blockedUrls (state w)) u) eqn:Hb.
  - rewrite (handleScan_blocked_world env u w Hb). simpl. eauto.
  - destruct (analyzeUrl_returns (fetch env) u) as [a Ha].
    rewrite (handleScan_fresh_world env u w a Hb Ha).
    exists (newResult env u a). split; [reflexivity|].
    apply newResult_agrees. now apply served_answer_agrees with (fetch env) u.
Qed.

(** C3 at a scan answered by the service with a score of 85. *)
Lemma riskLevel_agrees_with_riskScore_witness :
  exists r,
    currentResult
      (state (after_handleScan
                (example_env
                   (Server.serve "http://example.com"
                      (Server.generate_text (Server.parse_object example_response))))
                "http://example.com" (example_world [] [])))
      = Some r /\
    Utils.getRiskLevel (riskScore r) = riskLevel r.
Proof.
  pose proof riskLevel_agrees_with_riskScore as (_ & _ & _ & _ & _ & H).
  apply H. right.
  exists (Server.generate_text (Server.parse_object example_response)).
  reflexivity.
Defined.

(** C3 as stated fails on the client construction path with defaults: for
    an answer that carries neither [riskScore] nor [riskLevel] the
    pipeline creates a result with score 0 and level suspicious, where
    the classifier gives safe for 0. *)
Lemma default_pair_disagrees_with_classifier :
  exists r,
    currentResult
      (state (after_handleScan
                (example_env (fetch_resolves 200 (body_json Partial.empty)))
                "http://example.com" (example_world [] [])))
      = Some r /\
    riskScore r = 0 /\
    riskLevel r = suspicious /\
    Utils.getRiskLevel (riskScore r) = safe /\
    Utils.getRiskLevel (riskScore r) <> riskLevel r.
Proof.
  eexists. split; [reflexivity|]. repeat split. discriminate.
Qed.

(** ** The history *)

Lemma show_result_history r u b prev :
  history (show_result r u b prev) = slice0 50 (r :: history prev).
Proof. reflexivity. Qed.

Lemma show_result_history_length r u b prev :
  (List.length (history (show_result r u b prev)) <= 50)%nat.
Proof. rewrite show_result_history. unfold slice0. apply firstn_le_length. Qed.

Lemma show_result_history_head r u b prev :
  hd_error (history (show_result r u b prev)) = Some r.
Proof. rewrite show_result_history. reflexivity. Qed.

Section Bounded.

Variable n : nat.

(** Prepending to a list already cut at [S n] and cutting again. *)
Lemma slice0_cons_slice0 (x : ScanResult) (l : list ScanResult) :
  slice0 (S n) (x :: slice0 (S n) l) = slice0 (S n) (x :: l).
Proof.
  unfold slice0. rewrite !firstn_cons. f_equal.
  rewrite firstn_firstn. f_equal. lia.
Qed.

Lemma fold_slice0 (rs : list ScanResult) : forall h,
  fold_left (fun h r => slice0 (S n) (r :: h)) rs (slice0 (S n) h)
  = slice0 (S n) (rev rs ++ h).
Proof.
  induction rs as [|r rs IH]; intro h; [reflexivity|].
  cbn [fold_left]. rewrite slice0_cons_slice0, IH.
  cbn [rev]. now rewrite <- app_assoc.
Qed.

Lemma fold_slice0_nil (rs : list ScanResult) :
  fold_left (fun h r => slice0 (S n) (r :: h)) rs [] = slice0 (S n) (rev rs).
Proof.
  change (@nil ScanResult) with (slice0 (S n) (@nil ScanResult)) at 1.
  rewrite fold_slice0. now rewrite app_nil_r.
Qed.

Lemma slice0_full_run (r0 : ScanResult) (rest : list ScanResult) :
  List.length rest = S n ->
  slice0 (S n) (rev (r0 :: rest)) = rev rest.
Proof.
  intro Hlen. unfold slice0. cbn [rev].
  rewrite firstn_app, firstn_all2 by (rewrite length_rev; lia).
  rewrite length_rev, Hlen, Nat.sub_diag. apply app_nil_r.
Qed.

End Bounded.

Lemma record_all_history rs : forall st,
  history (record_all rs st)
  = fold_left (fun h r => slice0 50 (r :: h)) rs (history st).
Proof.
  induction rs as [|r rs IH]; intro st; [reflexivity|].
  unfold record_all in *. cbn [fold_left]. rewrite IH.
  now rewrite show_result_history.
Qed.

Lemma record_all_from_empty rs st :
  history st = [] ->
  history (record_all rs st) = slice0 50 (rev rs).
Proof.
  intro H. rewrite record_all_history, H. apply fold_slice0_nil.
Qed.

Lemma handle_history_bounded e w :
  (List.length (history (state w)) <= 50)%nat ->
  (List.length (history (state (snd (handle e w)))) <= 50)%nat.
Proof.
  intro H. destruct e as [env u | sc res |]; cbn [handle].
  - unfold handleScan, and_then, getState. cbn [fst snd].
    destruct (includes (blockedUrls (state w)) u); [exact H|].
    cbn. destruct (Gemini.analyzeUrl (fetch env) u) as [a|e]; [|exact H].
    cbn. destruct (RiskLevel_eqb _ _); apply show_result_history_length.
  - exact H.
  - exact H.
Qed.

Lemma session_history_bounded es : forall w,
  (List.length (history (state w)) <= 50)%nat ->
  (List.length (history (state (session es w))) <= 50)%nat.
Proof.
  induction es as [|e es IH]; intros w H; [exact H|].
  unfold session in *. cbn [fold_left]. apply IH.
  now apply handle_history_bounded.
Qed.

Lemma handleScan_history_bounded env u w :
  (List.length (history (state w)) <= 50)%nat ->
  (List.length (history (state (after_handleScan env u w))) <= 50)%nat.
Proof.
  intro H. unfold after_handleScan.
  destruct (includes (blockedUrls (state w)) u) eqn:Hb.
  - now rewrite (handleScan_blocked_world env u w Hb).
  - destruct (analyzeUrl_returns (fetch env) u) as [a Ha].
    rewrite (handleScan_fresh_world env u w a Hb Ha).
    apply show_result_history_length.
Qed.

(** C8. Recording a result puts it first in the history and leaves at
    most 50 entries, whatever the history was; so does a scan of a URL
    that is not blocked, and no scan, and no session of scans and
    navigations, takes a history of at most 50 entries beyond 50.  After
    51 results recorded into an empty history,
    the history is the 50 newest, newest first: the oldest is gone
    (it is present only if it was recorded again later). *)
Theorem history_newest_first_bounded :
  (forall r u b prev,
      hd_error (history (show_result r u b prev)) = Some r /\
      (List.length (history (show_result r u b prev)) <= 50)%nat) /\
  (forall env u w,
      includes (blockedUrls (state w)) u = false ->
      let w' := after_handleScan env u w in
      exists r,
        currentResult (state w') = Some r /\
        hd_error (history (state w')) = Some r /\
        (List.length (history (state w')) <= 50)%nat) /\
  (forall env u w,
      (List.length (history (state w)) <= 50)%nat ->
      (List.length (history (state (after_handleScan env u w))) <= 50)%nat) /\
  (forall es w,
      (List.length (history (state w)) <= 50)%nat ->
      (List.length (history (state (session es w))) <= 50)%nat) /\
  (forall r0 rest st,
      history st = [] ->
      List.length rest = 50%nat ->
      history (record_all (r0 :: rest) st) = rev rest /\
      List.length (history (record_all (r0 :: rest) st)) = 50%nat /\
      (~ In r0 rest -> ~ In r0 (history (record_all (r0 :: rest) st)))).
Proof.
  split; [|split; [|split; [|split]]].
  - intros r u b prev.
    split; [apply show_result_history_head | apply show_result_history_length].
  - intros env u w Hb w'. subst w'. unfold after_handleScan.
    destruct (analyzeUrl_returns (fetch env) u) as [a Ha].
    rewrite (handleScan_fresh_world env u w a Hb Ha).
    exists (newResult env u a). split; [reflexivity|].
    split; [apply show_result_history_head | apply show_result_history_length].
  - exact handleScan_history_bounded.
  - intros es w. apply session_history_bounded.
  - intros r0 rest st Hst Hlen.
    assert (E : history (record_all (r0 :: rest) st) = rev rest).
    { rewrite (record_all_from_empty _ _ Hst). now apply slice0_full_run. }
    rewrite E. split; [reflexivity|].
    split; [now rewrite length_rev|].
    intros Hn Hin. apply Hn. now apply in_rev.
Qed.

(** C8 at a run of 51 results with distinct timestamps. *)
Lemma history_newest_first_bounded_witness :
  let rest := map example_result (List.seq 1 50) in
  let st := record_all (example_result 0 :: rest) (state (example_world [] [])) in
  history st = rev rest /\
  List.length (history st) = 50%nat /\
  ~ In (example_result 0) (history st).
Proof.
  pose proof history_newest_first_bounded as (_ & _ & _ & _ & H).
  destruct (H (example_result 0) (map example_result (List.seq 1 50))
              (state (example_world [] [])) eq_refl eq_refl) as (E & L & N).
  split; [exact E|]. split; [exact L|].
  apply N. intro Hin. apply in_map_iff in Hin. destruct Hin as (k & Hk & Hseq).
  apply in_seq in Hseq.
  assert (Ht : timestamp (example_result k) = timestamp (example_result 0))
    by now rewrite Hk.
  unfold example_result in Ht. cbn [timestamp] in Ht. lia.
Defined.

(** ** Rehydration *)

Ltac storage_cases :=
  repeat match goal with
         | |- _ /\ _ => split
         | |- _ <-> _ => split
         | |- _ -> _ => intro
         | |- forall _, _ => intro
         | E : _ /\ _ |- _ => destruct E
         | E : _ \/ _ |- _ => destruct E
         | E : exists _, _ |- _ => destruct E
         end;
  try congruence; eauto.




(** * Part III: further properties of the code *)

(** ** The block list as a set *)

Lemma Set_spread_In seen : forall l x,
  In x (Set_spread seen l) <-> In x l /\ ~ In x seen.
Proof.
  intros l. revert seen.
  induction l as [|y l IH]; intros seen x; cbn [Set_spread].
  - cbn. tauto.
  - destruct (existsb (String.eqb y) seen) eqn:E.
    + apply (includes_In seen y) in E. rewrite IH. cbn [In].
      split; [tauto|]. intros [[<- | H] Hn]; [contradiction | tauto].
    + assert (Hy : ~ In y seen).
      { intro H. apply (includes_In seen y) in H. unfold includes in H. congruence. }
      cbn [In]. rewrite IH. cbn [In].
      destruct (string_dec y x) as [<- | Hne]; [tauto|]. tauto.
Qed.

Lemma Set_spread_NoDup : forall l seen, NoDup (Set_spread seen l).
Proof.
  induction l as [|y l IH]; intro seen; cbn [Set_spread]; [constructor|].
  destruct (existsb (String.eqb y) seen); [apply IH|].
  constructor; [|apply IH].
  rewrite Set_spread_In. cbn [In]. tauto.
Qed.

Lemma Set_spread_fixed : forall l seen,
  NoDup l -> (forall x, In x l -> ~ In x seen) -> Set_spread seen l = l.
Proof.
  induction l as [|y l IH]; intros seen Hnd Hs; [reflexivity|].
  cbn [Set_spread]. inversion Hnd as [|? ? Hy Hl]; subst.
  destruct (existsb (String.eqb y) seen) eqn:E.
  - apply (includes_In seen y) in E. exfalso. apply (Hs y); [left; reflexivity | exact E].
  - f_equal. apply IH; [exact Hl|].
    intros x Hx [<- | Hin]; [contradiction|]. apply (Hs x); [right; exact Hx | exact Hin].
Qed.

Lemma Set_spread_snoc_old : forall l seen u,
  In u l \/ In u seen -> Set_spread seen (l ++ [u]) = Set_spread seen l.
Proof.
  induction l as [|y l IH]; intros seen u H; cbn [app Set_spread].
  - destruct H as [[] | H]. apply (includes_In seen u) in H.
    unfold includes in H. now rewrite H.
  - destruct (existsb (String.eqb y) seen) eqn:E.
    + apply IH. destruct H as [[<- | H] | H]; [|tauto|tauto].
      right. now apply (includes_In seen y).
    + f_equal. apply IH. cbn [In] in H |- *. tauto.
Qed.

Lemma Set_spread_snoc_new : forall l seen u,
  ~ In u l -> ~ In u seen ->
  Set_spread seen (l ++ [u]) = (Set_spread seen l ++ [u])%list.
Proof.
  induction l as [|y l IH]; intros seen u Hl Hs; cbn [app Set_spread].
  - destruct (existsb (String.eqb u) seen) eqn:E; [|reflexivity].
    apply (includes_In seen u) in E. contradiction.
  - cbn [In] in Hl.
    destruct (existsb (String.eqb y) seen) eqn:E.
    + apply IH; tauto.
    + cbn [app]. f_equal. apply IH; [tauto|]. cbn [In]. tauto.
Qed.

Lemma show_result_blocks_url r u prev :
  In u (blockedUrls (show_result r u true prev)).
Proof.
  cbn [show_result blockedUrls]. rewrite Set_spread_In, in_app_iff.
  cbn [In]. tauto.
Qed.

(** X1. Blocking is a set insertion. After the updater of a high-risk
    result the block list has no duplicate and holds exactly the URLs it
    held plus the new one; on a duplicate-free list a URL already there
    changes nothing, a new one is appended at the end; blocking the same
    URL a second time changes nothing. *)
Theorem show_result_blocks_as_a_set :
  forall r u prev,
    let st := show_result r u true prev in
    NoDup (blockedUrls st) /\
    (forall x, In x (blockedUrls st) <-> In x (blockedUrls prev) \/ x = u) /\
    (NoDup (blockedUrls prev) -> In u (blockedUrls prev) ->
     blockedUrls st = blockedUrls prev) /\
    (NoDup (blockedUrls prev) -> ~ In u (blockedUrls prev) ->
     blockedUrls st = (blockedUrls prev ++ [u])%list) /\
    (forall r', blockedUrls (show_result r' u true st) = blockedUrls st).
Proof.
  intros r u prev st. subst st. cbn [show_result blockedUrls].
  assert (Hin : forall x, In x (Set_spread [] (blockedUrls prev ++ [u]))
                          <-> In x (blockedUrls prev) \/ x = u).
  { intro x. rewrite Set_spread_In, in_app_iff. cbn [In]. intuition congruence. }
  split; [apply Set_spread_NoDup|]. split; [exact Hin|].
  split; [|split].
  - intros Hnd Hu. rewrite Set_spread_snoc_old by tauto.
    apply Set_spread_fixed; [exact Hnd | intros x _ []].
  - intros Hnd Hu. rewrite Set_spread_snoc_new by (cbn [In]; tauto).
    f_equal. apply Set_spread_fixed; [exact Hnd | intros x _ []].
  - intro r'. rewrite Set_spread_snoc_old.
    + apply Set_spread_fixed; [apply Set_spread_NoDup | intros x _ []].
    + left. apply Hin. right. reflexivity.
Qed.

(** X1 at a list of two URLs and a third one. *)
Lemma show_result_blocks_as_a_set_witness :
  blockedUrls (show_result (example_result 0) "http://c.example" true
                 (state (example_world [] ["http://a.example"; "http://b.example"])))
  = ["http://a.example"; "http://b.example"; "http://c.example"].
Proof.
  pose proof (show_result_blocks_as_a_set (example_result 0) "http://c.example"
                (state (example_world [] ["http://a.example"; "http://b.example"])))
    as (_ & _ & _ & H & _).
  apply H.
  - repeat constructor; cbn [In]; intuition discriminate.
  - cbn [In example_world state blockedUrls]. intuition discriminate.
Defined.

(** ** One scan *)

Lemma handleScan_cases env u w :
  (includes (blockedUrls (state w)) u = true /\
   handleScan env u w
   = (Normal tt,
      {| state := show_blocked (blockedResult env u) (state w);
         isAnalyzing := isAnalyzing w;
         showAlert := true;
         analyzeUrl_calls := analyzeUrl_calls w |})) \/
  (includes (blockedUrls (state w)) u = false /\
   exists a,
     Gemini.analyzeUrl (fetch env) u = Normal a /\
     handleScan env u w
     = (Normal tt,
        let r := newResult env u a in
        let isHighRisk := RiskLevel_eqb (riskLevel r) high_risk in
        {| state := show_result r u isHighRisk (show_scanning (state w));
           isAnalyzing := false;
           showAlert := if isHighRisk then true else showAlert w;
           analyzeUrl_calls := u :: analyzeUrl_calls w |})).
Proof.
  destruct (includes (blockedUrls (state w)) u) eqn:Hb.
  - left. split; [reflexivity | now apply handleScan_blocked_world].
  - right. split; [reflexivity|].
    destruct (analyzeUrl_returns (fetch env) u) as [a Ha].
    exists a. split; [exact Ha | now apply handleScan_fresh_world].
Qed.

Lemma Runtime_analyzeUrl_cases fetch u :
  (exists status, fetch u = Runtime.resolves status Runtime.json_null /\
                  ok status = true /\
                  Runtime.analyzeUrl fetch u = Normal None) \/
  ((forall status, fetch u = Runtime.resolves status Runtime.json_null ->
                   ok status = false) /\
   exists a, Runtime.analyzeUrl fetch u = Normal (Some a)).
Proof.
  unfold Runtime.analyzeUrl.
  destruct (fetch u) as [|status [| |o]]; cbn.
  - right. split; [discriminate | eauto].
  - right. split; [discriminate|]. destruct (ok status); cbn; eauto.
  - destruct (ok status) eqn:Hok; cbn.
    + left. eauto.
    + right. split; [|eauto]. intros s H. injection H as <-. exact Hok.
  - right. split; [discriminate|]. destruct (ok status); cbn; eauto.
Qed.

Lemma Runtime_analyzeUrl_typed fetch net u :
  Runtime.typed (net u) = Some (fetch u) ->
  exists a,
    Runtime.analyzeUrl net u = Normal (Some a) /\
    Gemini.analyzeUrl fetch u = Normal a.
Proof.
  unfold Runtime.analyzeUrl, Gemini.analyzeUrl.
  destruct (net u) as [|status [| |o]]; cbn; intro H;
    try discriminate; injection H as <-; cbn.
  - eauto.
  - destruct (ok status); cbn; eauto.
  - destruct (ok status); cbn; eauto.
Qed.



(** X3. A scan whose answer is high-risk records the result, puts the
    URL on the block list and raises the alert; the next scan of the same
    URL, whatever the outside does then, is answered from the block list:
    no further call of [analyzeUrl], no new history entry, a result with
    score 100. *)
Theorem handleScan_high_risk_then_blocked :
  forall env env' u w a,
    includes (blockedUrls (state w)) u = false ->
    Gemini.analyzeUrl (fetch env) u = Normal a ->
    Partial.riskLevel a = Some high_risk ->
    let w1 := after_handleScan env u w in
    let w2 := after_handleScan env' u w1 in
    In u (blockedUrls (state w1)) /\
    showAlert w1 = true /\
    hd_error (history (state w1)) = Some (newResult env u a) /\
    analyzeUrl_calls w1 = u :: analyzeUrl_calls w /\
    analyzeUrl_calls w2 = analyzeUrl_calls w1 /\
    history (state w2) = history (state w1) /\
    blockedUrls (state w2) = blockedUrls (state w1) /\
    currentResult (state w2) = Some (blockedResult env' u).
Proof.
  intros env env' u w a Hb Ha Hl w1 w2.
  assert (E1 : w1 = {| state := show_result (newResult env u a) u true
                                  (show_scanning (state w));
                       isAnalyzing := false;
                       showAlert := true;
                       analyzeUrl_calls := u :: analyzeUrl_calls w |}).
  { subst w1. unfold after_handleScan.
    rewrite (handleScan_fresh_world env u w a Hb Ha).
    cbn [snd newResult riskLevel]. rewrite Hl. reflexivity. }
  assert (Hin : In u (blockedUrls (state w1))).
  { rewrite E1. cbn [state].
    apply (show_result_blocks_url (newResult env u a) u). }
  assert (E2 : w2 = {| state := show_blocked (blockedResult env' u) (state w1);
                       isAnalyzing := isAnalyzing w1;
                       showAlert := true;
                       analyzeUrl_calls := analyzeUrl_calls w1 |}).
  { subst w2. unfold after_handleScan.
    rewrite handleScan_blocked_world by now apply includes_In.
    reflexivity. }
  split; [exact Hin|]. rewrite E2. cbn [state analyzeUrl_calls show_blocked
    history blockedUrls currentResult]. rewrite E1.
  cbn [state showAlert analyzeUrl_calls]. repeat split.
Qed.

Lemma handleScan_high_risk_then_blocked_witness :
  let env := example_env
               (fetch_resolves 200
                  (body_json
                     {| Partial.id := None; Partial.url := None;
                        Partial.timestamp := None;
                        Partial.riskScore := Some 85;
                        Partial.riskLevel := Some high_risk;
                        Partial.indicators := Some ["lookalike domain"];
                        Partial.recommendation := Some "Do not visit";
                        Partial.analysis := Some "..." |})) in
  let w1 := after_handleScan env "http://example.com" (example_world [] []) in
  let w2 := after_handleScan (example_env fetch_rejects) "http://example.com" w1 in
  In "http://example.com" (blockedUrls (state w1)) /\
  analyzeUrl_calls w2 = ["http://example.com"].
Proof.
  intros env w1 w2.
  pose proof (handleScan_high_risk_then_blocked env (example_env fetch_rejects)
                "http://example.com" (example_world [] []) _
                eq_refl eq_refl eq_refl) as (H1 & _ & _ & H4 & H5 & _).
  split; [exact H1|]. subst w2 w1. rewrite H5, H4. reflexivity.
Defined.

(** X4. A scan whose answer is not high-risk leaves the block list and
    the alert as they were; the verdict is not cached: the next scan of
    the same URL calls [analyzeUrl] again. *)
Theorem handleScan_not_high_risk :
  forall env env' u w a,
    includes (blockedUrls (state w)) u = false ->
    Gemini.analyzeUrl (fetch env) u = Normal a ->
    Partial.riskLevel a <> Some high_risk ->
    let w1 := after_handleScan env u w in
    let w2 := after_handleScan env' u w1 in
    blockedUrls (state w1) = blockedUrls (state w) /\
    showAlert w1 = showAlert w /\
    hd_error (history (state w1)) = Some (newResult env u a) /\
    analyzeUrl_calls w1 = u :: analyzeUrl_calls w /\
    analyzeUrl_calls w2 = u :: u :: analyzeUrl_calls w.
Proof.
  intros env env' u w a Hb Ha Hl w1 w2.
  assert (Hr : RiskLevel_eqb (riskLevel (newResult env u a)) high_risk = false).
  { cbn [newResult riskLevel]. destruct (Partial.riskLevel a) as [[| |]|];
      cbn; congruence. }
  assert (E1 : w1 = {| state := show_result (newResult env u a) u false
                                  (show_scanning (state w));
                       isAnalyzing := false;
                       showAlert := showAlert w;
                       analyzeUrl_calls := u :: analyzeUrl_calls w |}).
  { subst w1. unfold after_handleScan.
    rewrite (handleScan_fresh_world env u w a Hb Ha).
    cbn [snd]. rewrite Hr. reflexivity. }
  assert (Hb1 : includes (blockedUrls (state w1)) u = false).
  { rewrite E1. exact Hb. }
  split; [now rewrite E1|]. split; [now rewrite E1|].
  split; [rewrite E1; apply show_result_history_head|].
  split; [now rewrite E1|].
  subst w2. unfold after_handleScan.
  destruct (handleScan_cases env' u w1) as [[Hc _] | [_ (a' & _ & ->)]];
    [congruence|].
  cbn [snd analyzeUrl_calls]. now rewrite E1.
Qed.

Lemma handleScan_not_high_risk_witness :
  let env := example_env (fetch_resolves 200 (body_json example_response)) in
  analyzeUrl_calls
    (after_handleScan env "http://example.com"
       (after_handleScan env "http://example.com" (example_world [] [])))
  = ["http://example.com"; "http://example.com"].
Proof.
  intro env.
  pose proof (handleScan_not_high_risk env env "http://example.com"
                (example_world [] []) example_response eq_refl eq_refl) as H.
  apply H. discriminate.
Defined.

(** X5. When the outbound call fails (the transport rejects, the status
    is outside 200..299 or the body is not JSON) the scan still ends on
    the result screen: the degraded record, with score 50 and level
    suspicious, is shown and put first in the history; the URL is not
    blocked and no alert is raised. *)
Theorem handleScan_degraded_is_recorded :
  forall env u w,
    includes (blockedUrls (state w)) u = false ->
    fetch env u = fetch_rejects \/
    (exists status body, fetch env u = fetch_resolves status body /\ ok status = false) \/
    (exists status, fetch env u = fetch_resolves status body_malformed) ->
    let w' := after_handleScan env u w in
    exists r,
      currentResult (state w') = Some r /\
      hd_error (history (state w')) = Some r /\
      url r = u /\
      riskScore r = 50 /\
      riskLevel r = suspicious /\
      indicators r = ["Analysis failed due to network error"] /\
      blockedUrls (state w') = blockedUrls (state w) /\
      showAlert w' = showAlert w.
Proof.
  intros env u w Hb Hf w'.
  assert (Ha : Gemini.analyzeUrl (fetch env) u = Normal Gemini.fallback).
  { destruct Hf as [H | [(status & body & H & Hok) | (status & H)]].
    - now apply analyzeUrl_rejects.
    - now apply analyzeUrl_not_ok with status body.
    - now apply analyzeUrl_malformed with status. }
  subst w'. unfold after_handleScan.
  rewrite (handleScan_fresh_world env u w _ Hb Ha).
  exists (newResult env u Gemini.fallback). cbn [snd state currentResult].
  split; [reflexivity|]. split; [apply show_result_history_head|].
  repeat split.
Qed.

Lemma handleScan_degraded_is_recorded_witness :
  exists r,
    hd_error (history (state (after_handleScan (example_env fetch_rejects)
                                "http://example.com" (example_world [] []))))
    = Some r /\
    riskScore r = 50 /\ riskLevel r = suspicious.
Proof.
  destruct (handleScan_degraded_is_recorded (example_env fetch_rejects)
              "http://example.com" (example_world [] []) eq_refl
              (or_introl eq_refl))
    as (r & _ & Hh & _ & Hs & Hl & _).
  exists r. repeat split; assumption.
Defined.

(** ** Sessions *)

Section Invariant.

Variable P : World -> Prop.
Hypothesis P_step : forall e w, P w -> P (snd (handle e w)).

Lemma session_invariant es : forall w, P w -> P (session es w).
Proof.
  induction es as [|e es IH]; intros w H; [exact H|].
  unfold session in *. cbn [fold_left]. apply IH, P_step, H.
Qed.

End Invariant.

Lemma In_slice0 {A} (n : nat) (x : A) : forall l, In x (slice0 n l) -> In x l.
Proof.
  unfold slice0. induction n as [|n IH]; intros [|y l]; cbn; try tauto.
  intros [H | H]; [tauto | right; now apply IH].
Qed.

Lemma includes_false (l : list string) (x : string) :
  includes l x = false <-> ~ In x l.
Proof.
  rewrite <- includes_In. destruct (includes l x); split; congruence.
Qed.

(** What a scan of a URL that is not blocked does to the block list. *)
Lemma handle_blockedUrls e w x :
  In x (blockedUrls (state w)) -> In x (blockedUrls (state (snd (handle e w)))).
Proof.
  intro H. destruct e as [env u | sc res |]; cbn [handle]; [|exact H|exact H].
  destruct (handleScan_cases env u w) as [[_ ->] | [_ (a & _ & ->)]];
    cbn [snd state show_blocked blockedUrls]; [exact H|].
  cbn [show_result blockedUrls].
  destruct (RiskLevel_eqb _ _); [|exact H].
  rewrite Set_spread_In, in_app_iff. cbn [show_scanning blockedUrls In]. tauto.
Qed.

Lemma handle_no_new_call e w x :
  In x (blockedUrls (state w)) ->
  count_occ string_dec (analyzeUrl_calls (snd (handle e w))) x
  = count_occ string_dec (analyzeUrl_calls w) x.
Proof.
  intro H. destruct e as [env u | sc res |]; cbn [handle];
    [|reflexivity|reflexivity].
  destruct (handleScan_cases env u w) as [[_ ->] | [Hb (a & _ & ->)]];
    cbn [snd analyzeUrl_calls]; [reflexivity|].
  apply count_occ_cons_neq. intros ->.
  apply includes_false in Hb. contradiction.
Qed.

(** X6. Nothing ever unblocks a URL, and a blocked URL is never sent to
    the assessment client again: through any session of scans,
    navigations and dismissals a URL on the block list stays on it, and
    the number of calls of [analyzeUrl] on it stays what it was. *)
Theorem session_blocked_is_final :
  forall es w u,
    In u (blockedUrls (state w)) ->
    In u (blockedUrls (state (session es w))) /\
    count_occ string_dec (analyzeUrl_calls (session es w)) u
    = count_occ string_dec (analyzeUrl_calls w) u.
Proof.
  intros es w u H.
  apply (session_invariant
           (fun w' => In u (blockedUrls (state w')) /\
                      count_occ string_dec (analyzeUrl_calls w') u
                      = count_occ string_dec (analyzeUrl_calls w) u));
    [|split; [exact H | reflexivity]].
  intros e w' [Hin Hc]. split.
  - now apply handle_blockedUrls.
  - now rewrite handle_no_new_call.
Qed.

Lemma session_blocked_is_final_witness :
  let es := [scan (example_env fetch_rejects) "http://evil.example";
             navigate Screen.home None;
             scan (example_env (fetch_resolves 200 (body_json example_response)))
               "http://example.com";
             scan (example_env fetch_rejects) "http://evil.example"] in
  let w := example_world [] ["http://evil.example"] in
  In "http://evil.example" (blockedUrls (state (session es w))) /\
  count_occ string_dec (analyzeUrl_calls (session es w)) "http://evil.example" = 0%nat.
Proof.
  intros es w.
  apply (session_blocked_is_final es w "http://evil.example").
  left. reflexivity.
Defined.

(** X7. The block list never holds a URL twice: a session that starts
    from a duplicate-free block list ends with one. *)
Theorem session_blockedUrls_NoDup :
  forall es w,
    NoDup (blockedUrls (state w)) ->
    NoDup (blockedUrls (state (session es w))).
Proof.
  intros es. apply (session_invariant (fun w => NoDup (blockedUrls (state w)))).
  intros e w H. destruct e as [env u | sc res |]; cbn [handle]; [|exact H|exact H].
  destruct (handleScan_cases env u w) as [[_ ->] | [_ (a & _ & ->)]];
    cbn [snd state show_blocked blockedUrls]; [exact H|].
  cbn [show_result blockedUrls].
  destruct (RiskLevel_eqb _ _); [apply Set_spread_NoDup | exact H].
Qed.

Lemma session_blockedUrls_NoDup_witness :
  NoDup (blockedUrls
           (state (session
                     [scan (example_env
                              (Server.serve "http://example.com"
                                 (Server.generate_text
                                    (Server.parse_object example_response))))
                        "http://example.com"]
                     (example_world [] ["http://evil.example"])))).
Proof.
  apply session_blockedUrls_NoDup.
  repeat constructor. cbn [In]. tauto.
Defined.

(** X8. Only assessed URLs are recorded or blocked: if every URL on the
    block list and every URL of a history entry has been passed to
    [analyzeUrl] (as on a fresh start, where both are empty), this is
    still so after any session. *)
Theorem session_only_assessed_urls :
  forall es w,
    (forall x, In x (blockedUrls (state w)) -> In x (analyzeUrl_calls w)) ->
    (forall r, In r (history (state w)) -> In (url r) (analyzeUrl_calls w)) ->
    (forall x, In x (blockedUrls (state (session es w))) ->
               In x (analyzeUrl_calls (session es w))) /\
    (forall r, In r (history (state (session es w))) ->
               In (url r) (analyzeUrl_calls (session es w))).
Proof.
  intros es w Hb Hh.
  apply (session_invariant
           (fun w => (forall x, In x (blockedUrls (state w)) -> In x (analyzeUrl_calls w)) /\
                     (forall r, In r (history (state w)) -> In (url r) (analyzeUrl_calls w))));
    [|split; assumption].
  clear. intros e w [Hb Hh].
  destruct e as [env u | sc res |]; cbn [handle]; [|split; assumption|split; assumption].
  destruct (handleScan_cases env u w) as [[_ ->] | [_ (a & _ & ->)]];
    cbn [snd state analyzeUrl_calls show_blocked blockedUrls history];
    [split; assumption|].
  cbn [show_result blockedUrls history show_scanning]. split.
  - intros x Hx. cbn [In].
    destruct (RiskLevel_eqb _ _); [|right; now apply Hb].
    apply Set_spread_In in Hx. destruct Hx as [Hx _].
    apply in_app_iff in Hx. cbn [In] in Hx.
    destruct Hx as [Hx | [-> | []]]; [right; now apply Hb | now left].
  - intros r Hr. apply In_slice0 in Hr. cbn [In] in Hr |- *.
    destruct Hr as [<- | Hr]; [now left | right; now apply Hh].
Qed.

Lemma session_only_assessed_urls_witness :
  let w := session
             [scan (example_env
                      (Server.serve "http://example.com"
                         (Server.generate_text
                            (Server.parse_object example_response))))
                "http://example.com"]
             (example_world [] []) in
  In "http://example.com" (blockedUrls (state w)) /\
  In "http://example.com" (analyzeUrl_calls w).
Proof.
  intro w.
  assert (Hb : In "http://example.com" (blockedUrls (state w)))
    by (left; reflexivity).
  split; [exact Hb|].
  apply (session_only_assessed_urls
           [scan (example_env
                    (Server.serve "http://example.com"
                       (Server.generate_text
                          (Server.parse_object example_response))))
              "http://example.com"]
           (example_world [] [])).
  - intros x [].
  - intros r [].
  - exact Hb.
Defined.

(** ** The service, and the client in front of it *)

Lemma url_missing_Some (u : string) :
  Server.url_missing (Some u) = false <-> u <> "".
Proof.
  cbn. destruct (String.eqb_spec u ""); split; congruence.
Qed.

(** X9. The handler of [POST /api/analyze] never throws and answers with
    one of three statuses: 400 exactly when the request has no URL (or an
    empty one), with the error body and whatever the AI backend would
    have said; 500 exactly when there is a URL and the backend call
    throws or its text does not parse or parses to [null]; 200 exactly
    when there is a URL and the text is empty or parses to an object. *)
Theorem analyze_status :
  forall u g,
    exists r,
      Server.analyze u g = Normal r /\
      (Server.status r = 400 <-> Server.url_missing u = true) /\
      (Server.status r = 400 ->
       Server.body r = Server.error_payload "URL is required") /\
      (Server.status r = 500 <->
       Server.url_missing u = false /\
       (g = Server.generate_throws \/
        g = Server.generate_text Server.parse_throws \/
        g = Server.generate_text Server.parse_null)) /\
      (Server.status r = 200 <->
       Server.url_missing u = false /\
       (g = Server.generate_no_text \/
        exists d, g = Server.generate_text (Server.parse_object d))) /\
      (Server.status r = 200 \/ Server.status r = 400 \/ Server.status r = 500).
Proof.
  intros u g. unfold Server.analyze.
  destruct (Server.url_missing u) eqn:Hu.
  - eexists. split; [reflexivity|]. cbn [Server.status Server.body].
    repeat split; try tauto; try discriminate; try lia;
      intros [H _]; discriminate H.
  - destruct g as [| |[| |d]]; cbn; eexists; (split; [reflexivity|]);
      cbn [Server.status Server.body];
      repeat split; try tauto; try discriminate; try lia; eauto;
      try (intros [_ [H | [H | H]]]; discriminate H);
      try (intros [_ [H | [d' H]]]; discriminate H).
Qed.

(** X10. The service does not trust a level the AI supplies: two texts
    of the backend that differ at most in [riskLevel] get the same
    answer, whose level is the classifier's on the score (0 when the
    score is missing) and whose other properties are those of the
    text. *)
Theorem analyze_overrides_riskLevel :
  forall u d d',
    Server.url_missing u = false ->
    Partial.id d = Partial.id d' ->
    Partial.url d = Partial.url d' ->
    Partial.timestamp d = Partial.timestamp d' ->
    Partial.riskScore d = Partial.riskScore d' ->
    Partial.indicators d = Partial.indicators d' ->
    Partial.recommendation d = Partial.recommendation d' ->
    Partial.analysis d = Partial.analysis d' ->
    Server.analyze u (Server.generate_text (Server.parse_object d))
    = Server.analyze u (Server.generate_text (Server.parse_object d')) /\
    exists o,
      Server.analyze u (Server.generate_text (Server.parse_object d))
      = Normal {| Server.status := 200; Server.body := Server.result_payload o |} /\
      Partial.riskLevel o
      = Some (Server.getRiskLevel
                match Partial.riskScore d with Some n => n | None => 0 end) /\
      Partial.riskScore o = Partial.riskScore d /\
      Partial.indicators o = Partial.indicators d /\
      Partial.recommendation o = Partial.recommendation d /\
      Partial.analysis o = Partial.analysis d.
Proof.
  intros u d d' Hu H1 H2 H3 H4 H5 H6 H7.
  unfold Server.analyze. rewrite Hu. cbn.
  rewrite H1, H2, H3, H4, H5, H6, H7. split; [reflexivity|].
  eexists. split; [reflexivity|]. cbn.
  rewrite or_number_default. repeat split.
Qed.

Lemma analyze_overrides_riskLevel_witness :
  Server.analyze (Some "http://example.com")
    (Server.generate_text (Server.parse_object example_response))
  = Server.analyze (Some "http://example.com")
      (Server.generate_text
         (Server.parse_object
            {| Partial.id := None; Partial.url := None; Partial.timestamp := None;
               Partial.riskScore := Some 85;
               Partial.riskLevel := Some safe;
               Partial.indicators := Some ["lookalike domain"];
               Partial.recommendation := None;
               Partial.analysis := Some "..." |})).
Proof.
  apply (analyze_overrides_riskLevel (Some "http://example.com")); reflexivity.
Defined.

Lemma serve_object u d :
  u <> "" ->
  exists o,
    Server.with_riskLevel (Some d) = Normal o /\
    Server.serve u (Server.generate_text (Server.parse_object d))
    = fetch_resolves 200 (body_json o).
Proof.
  intro Hu. apply url_missing_Some in Hu.
  unfold Server.serve, Server.analyze. rewrite Hu. cbn. eauto.
Qed.

(** X11. End to end, the AI's score alone decides blocking. For a
    non-empty URL that is not blocked, answered by the service from a
    backend text that parses to an object: the result has the score of
    the text (0 when missing) and the level of the classifier on it; the
    URL is on the block list afterwards exactly when that score is at
    least 70, and then the alert is raised. *)
Theorem handleScan_blocks_from_70 :
  forall env u w d,
    u <> "" ->
    ~ In u (blockedUrls (state w)) ->
    fetch env u = Server.serve u (Server.generate_text (Server.parse_object d)) ->
    let score := match Partial.riskScore d with Some n => n | None => 0 end in
    let w' := after_handleScan env u w in
    exists r,
      currentResult (state w') = Some r /\
      riskScore r = score /\
      riskLevel r = Utils.getRiskLevel score /\
      (In u (blockedUrls (state w')) <-> score >= 70) /\
      (score >= 70 -> showAlert w' = true) /\
      (score < 70 -> showAlert w' = showAlert w /\
                     blockedUrls (state w') = blockedUrls (state w)).
Proof.
  intros env u w d Hu Hnb Hf score w'.
  destruct (serve_object u d Hu) as (o & Ho & Hs).
  cbn in Ho. injection Ho as Ho.
  assert (Ha : Gemini.analyzeUrl (fetch env) u = Normal o).
  { apply analyzeUrl_ok with 200; [congruence | reflexivity]. }
  assert (Hb : includes (blockedUrls (state w)) u = false)
    by now apply includes_false.
  subst w'. unfold after_handleScan.
  rewrite (handleScan_fresh_world env u w o Hb Ha). cbn [snd state].
  exists (newResult env u o).
  assert (Hscore : riskScore (newResult env u o) = score).
  { subst o. cbn. apply or_number_default. }
  assert (Hlevel : riskLevel (newResult env u o) = Utils.getRiskLevel score).
  { subst o. cbn. now rewrite or_number_default. }
  split; [reflexivity|]. split; [exact Hscore|]. split; [exact Hlevel|].
  rewrite Hlevel.
  pose proof (classify_high_risk Utils.getRiskLevel (fun _ => eq_refl) score) as Hh.
  destruct (Utils.getRiskLevel score) eqn:El; cbn [RiskLevel_eqb].
  - cbn [show_result show_scanning blockedUrls].
    assert (~ score >= 70) by (intro H; apply Hh in H; discriminate).
    repeat split; try tauto; try lia.
  - cbn [show_result show_scanning blockedUrls].
    assert (~ score >= 70) by (intro H; apply Hh in H; discriminate).
    repeat split; try tauto; try lia.
  - assert (score >= 70) by now apply Hh.
    repeat split; try tauto; try lia.
    intros _. apply show_result_blocks_url.
Qed.

Lemma handleScan_blocks_from_70_witness :
  let env := example_env
               (Server.serve "http://example.com"
                  (Server.generate_text (Server.parse_object example_response))) in
  exists r,
    currentResult (state (after_handleScan env "http://example.com"
                            (example_world [] []))) = Some r /\
    riskScore r = 85 /\
    riskLevel r = high_risk.
Proof.
  intro env.
  destruct (handleScan_blocks_from_70 env "http://example.com"
              (example_world [] []) example_response)
    as (r & Hc & Hs & Hl & _).
  - discriminate.
  - intros [].
  - reflexivity.
  - exists r. repeat split; assumption.
Defined.

(** ** The ways into a scan *)

(** X12. The manual form never starts a scan on an empty URL, but
    [tick] hands on the data of a decoded code as it is, empty or not.
    A call of [handleScan] on the empty string that is not blocked and is
    answered by the service gets 400, whatever the AI backend would have
    said, and is recorded as the degraded result under the empty URL. *)
Theorem handleScan_empty_url :
  forall env w g,
    ~ In "" (blockedUrls (state w)) ->
    fetch env "" = Server.serve "" g ->
    let w' := after_handleScan env "" w in
    onSubmit env (Some "") w = (Normal tt, w) /\
    onSubmit env None w = (Normal tt, w) /\
    (forall f,
        HAVE_ENOUGH_DATA f = true -> canvasRef_current f = true ->
        getContext_2d f = true -> jsQR f = Some "" -> tick f = Some "") /\
    Server.serve "" g = fetch_resolves 400 (body_json Partial.empty) /\
    analyzeUrl_calls w' = "" :: analyzeUrl_calls w /\
    exists r,
      currentResult (state w') = Some r /\
      hd_error (history (state w')) = Some r /\
      url r = "" /\
      riskScore r = 50 /\
      riskLevel r = suspicious /\
      indicators r = ["Analysis failed due to network error"].
Proof.
  intros env w g Hnb Hf w'.
  split; [reflexivity|]. split; [reflexivity|].
  split; [intros f H1 H2 H3 H4; unfold tick; now rewrite H1, H2, H3|].
  split; [reflexivity|].
  assert (Ha : Gemini.analyzeUrl (fetch env) "" = Normal Gemini.fallback).
  { apply analyzeUrl_not_ok with 400 (body_json Partial.empty);
      [rewrite Hf|]; reflexivity. }
  assert (Hb : includes (blockedUrls (state w)) "" = false)
    by now apply includes_false.
  subst w'. unfold after_handleScan.
  rewrite (handleScan_fresh_world env "" w _ Hb Ha). cbn [snd state analyzeUrl_calls].
  split; [reflexivity|].
  exists (newResult env "" Gemini.fallback).
  split; [reflexivity|].
  split; [apply show_result_history_head | repeat split].
Qed.

Lemma handleScan_empty_url_witness :
  let env := example_env (Server.serve "" Server.generate_no_text) in
  analyzeUrl_calls (after_handleScan env "" (example_world [] [])) = [""].
Proof.
  intro env.
  apply (handleScan_empty_url env (example_world [] []) Server.generate_no_text).
  - intros [].
  - reflexivity.
Defined.

(** ** What the result screen offers *)

Lemma renderResult_action_fresh env u w a :
  includes (blockedUrls (state w)) u = false ->
  Gemini.analyzeUrl (fetch env) u = Normal a ->
  renderResult_action (state (after_handleScan env u w))
  = Some (if RiskLevel_eqb (riskLevel (newResult env u a)) safe
          then open_secure_link u else report_and_close).
Proof.
  intros Hb Ha. unfold after_handleScan.
  rewrite (handleScan_fresh_world env u w a Hb Ha). reflexivity.
Qed.

(** X13. "Open Secure Link" is offered only for a result of level safe.
    After a scan answered from the block list, or a scan whose outbound
    call failed, the screen offers "Report & Close".  After a scan of a
    non-empty URL answered by the service, the link is offered exactly
    when the score of the backend text (0 when missing) is below 30; in
    particular it is offered when the backend text is empty. *)
Theorem renderResult_offers_link_when_safe :
  (forall env u w,
      In u (blockedUrls (state w)) ->
      renderResult_action (state (after_handleScan env u w)) = Some report_and_close) /\
  (forall env u w,
      ~ In u (blockedUrls (state w)) ->
      fetch env u = fetch_rejects \/
      (exists status body, fetch env u = fetch_resolves status body /\ ok status = false) \/
      (exists status, fetch env u = fetch_resolves status body_malformed) ->
      renderResult_action (state (after_handleScan env u w)) = Some report_and_close) /\
  (forall env u w d,
      u <> "" ->
      ~ In u (blockedUrls (state w)) ->
      fetch env u = Server.serve u (Server.generate_text (Server.parse_object d)) ->
      (renderResult_action (state (after_handleScan env u w)) = Some (open_secure_link u)
       <-> match Partial.riskScore d with Some n => n | None => 0 end < 30) /\
      (renderResult_action (state (after_handleScan env u w)) = Some report_and_close
       <-> match Partial.riskScore d with Some n => n | None => 0 end >= 30)) /\
  (forall env u w,
      u <> "" ->
      ~ In u (blockedUrls (state w)) ->
      fetch env u = Server.serve u Server.generate_no_text ->
      renderResult_action (state (after_handleScan env u w)) = Some (open_secure_link u)).
Proof.
  split; [|split; [|split]].
  - intros env u w Hin. unfold after_handleScan.
    rewrite handleScan_blocked_world by now apply includes_In. reflexivity.
  - intros env u w Hnb Hf. apply includes_false in Hnb.
    assert (Ha : Gemini.analyzeUrl (fetch env) u = Normal Gemini.fallback).
    { destruct Hf as [H | [(status & body & H & Hok) | (status & H)]].
      - now apply analyzeUrl_rejects.
      - now apply analyzeUrl_not_ok with status body.
      - now apply analyzeUrl_malformed with status. }
    now rewrite (renderResult_action_fresh env u w _ Hnb Ha).
  - intros env u w d Hu Hnb Hf. apply includes_false in Hnb.
    destruct (serve_object u d Hu) as (o & Ho & Hs).
    cbn in Ho. injection Ho as Ho.
    assert (Ha : Gemini.analyzeUrl (fetch env) u = Normal o).
    { apply analyzeUrl_ok with 200; [congruence | reflexivity]. }
    rewrite (renderResult_action_fresh env u w o Hnb Ha).
    assert (Hl : riskLevel (newResult env u o)
                 = Utils.getRiskLevel
                     match Partial.riskScore d with Some n => n | None => 0 end).
    { subst o. cbn. now rewrite or_number_default. }
    rewrite Hl.
    pose proof (classify_safe Utils.getRiskLevel (fun _ => eq_refl)
                  match Partial.riskScore d with Some n => n | None => 0 end) as Hsafe.
    destruct (Utils.getRiskLevel _) eqn:E; cbn [RiskLevel_eqb].
    + assert (match Partial.riskScore d with Some n => n | None => 0 end < 30)
        by now apply Hsafe.
      split; split; try tauto; try discriminate; try lia.
    + assert (~ match Partial.riskScore d with Some n => n | None => 0 end < 30)
        by (intro H; apply Hsafe in H; discriminate).
      split; split; try tauto; try discriminate; try lia.
    + assert (~ match Partial.riskScore d with Some n => n | None => 0 end < 30)
        by (intro H; apply Hsafe in H; discriminate).
      split; split; try tauto; try discriminate; try lia.
  - intros env u w Hu Hnb Hf. apply includes_false in Hnb.
    assert (Ha : Gemini.analyzeUrl (fetch env) u
                 = Normal {| Partial.id := None; Partial.url := None;
                             Partial.timestamp := None; Partial.riskScore := None;
                             Partial.riskLevel := Some safe;
                             Partial.indicators := None;
                             Partial.recommendation := None;
                             Partial.analysis := None |}).
    { apply analyzeUrl_ok with 200; [|reflexivity].
      rewrite Hf. now apply serve_no_text. }
    now rewrite (renderResult_action_fresh env u w _ Hnb Ha).
Qed.

Lemma renderResult_offers_link_when_safe_witness :
  renderResult_action
    (state (after_handleScan (example_env fetch_rejects) "http://evil.example"
              (example_world [] ["http://evil.example"])))
  = Some report_and_close /\
  renderResult_action
    (state (after_handleScan
              (example_env (Server.serve "http://example.com" Server.generate_no_text))
              "http://example.com" (example_world [] [])))
  = Some (open_secure_link "http://example.com").
Proof.
  pose proof renderResult_offers_link_when_safe as (H1 & _ & _ & H4).
  split.
  - apply H1. left. reflexivity.
  - apply H4; [discriminate | intros [] | reflexivity].
Defined.

(** ** The AI client of the server *)

Lemma getAI_calls_created keys ai :
  getAI_calls keys (Some ai) = (map (fun _ => Normal ai) keys, Some ai).
Proof.
  induction keys as [|key keys IH]; [reflexivity|].
  cbn [getAI_calls getAI map]. now rewrite IH.
Qed.

Lemma getAI_calls_first keys : forall aiInstance c,
  In c (fst (getAI_calls keys aiInstance)) ->
  match c with
  | Normal ai =>
      snd (getAI_calls keys aiInstance) = Some ai /\
      (forall ai', In (Normal ai') (fst (getAI_calls keys aiInstance)) -> ai' = ai)
  | Throw e => e = NewError "GEMINI_API_KEY is not defined" /\ aiInstance = None
  end.
Proof.
  induction keys as [|key keys IH]; intros inst c Hc; [destruct Hc|].
  destruct inst as [ai|].
  - rewrite getAI_calls_created in *. cbn [fst snd] in *.
    apply in_map_iff in Hc. destruct Hc as (k & <- & _).
    split; [reflexivity|]. intros ai' H. apply in_map_iff in H.
    destruct H as (k' & H & _). congruence.
  - cbn [getAI_calls getAI] in *.
    destruct key as [k|].
    + destruct (k =? "")%string.
      * destruct (getAI_calls keys None) as [cs last] eqn:E.
        cbn [fst snd] in *. destruct Hc as [<- | Hc]; [split; reflexivity|].
        specialize (IH None c). rewrite E in IH. cbn [fst snd] in IH.
        specialize (IH Hc). destruct c as [ai|e]; [|exact IH].
        destruct IH as [IH1 IH2]. split; [exact IH1|].
        intros ai' [H | H]; [discriminate | now apply IH2].
      * rewrite getAI_calls_created in *. cbn [fst snd] in *.
        assert (Hall : forall x, In x (Normal {| apiKey := k |}
                                       :: map (fun _ => Normal {| apiKey := k |}) keys)
                                 -> x = Normal {| apiKey := k |}).
        { intros x [<- | H]; [reflexivity|]. apply in_map_iff in H.
          destruct H as (k' & <- & _). reflexivity. }
        apply Hall in Hc. subst c. split; [reflexivity|].
        intros ai' H. apply Hall in H. congruence.
    + destruct (getAI_calls keys None) as [cs last] eqn:E.
      cbn [fst snd] in *. destruct Hc as [<- | Hc]; [split; reflexivity|].
      specialize (IH None c). rewrite E in IH. cbn [fst snd] in IH.
      specialize (IH Hc). destruct c as [ai|e]; [|exact IH].
      destruct IH as [IH1 IH2]. split; [exact IH1|].
      intros ai' [H | H]; [discriminate | now apply IH2].
Qed.

(** X14. [getAI] creates one client and keeps it. A call throws exactly
    when no client exists yet and the key is missing or empty, and then
    leaves no client behind, so that a later call tries again; once a
    client exists every call returns it, whatever the environment
    variable has become; so all the clients returned over any run of
    calls are one and the same. *)
Theorem getAI_is_a_singleton :
  (forall key aiInstance,
      (exists e, fst (getAI key aiInstance) = Throw e) <->
      aiInstance = None /\ (key = None \/ key = Some "")) /\
  (forall key aiInstance e,
      fst (getAI key aiInstance) = Throw e -> snd (getAI key aiInstance) = None) /\
  (forall key aiInstance ai,
      fst (getAI key aiInstance) = Normal ai -> snd (getAI key aiInstance) = Some ai) /\
  (forall keys ai,
      getAI_calls keys (Some ai) = (map (fun _ => Normal ai) keys, Some ai)) /\
  (forall keys aiInstance ai ai',
      In (Normal ai) (fst (getAI_calls keys aiInstance)) ->
      In (Normal ai') (fst (getAI_calls keys aiInstance)) ->
      ai = ai').
Proof.
  split; [|split; [|split; [|split]]].
  - intros key inst. unfold getAI. destruct inst as [ai|]; cbn [fst].
    + split; [intros [e H]; discriminate | intros [H _]; discriminate].
    + destruct key as [k|];
        [|split; [intros _; split; [reflexivity | left; reflexivity]
                 | intros _; eexists; reflexivity]].
      destruct (String.eqb_spec k ""); cbn [fst].
      * subst. split; [intros _; split; [reflexivity | right; reflexivity]
                      | intros _; eexists; reflexivity].
      * split; [intros [e H]; discriminate|].
        intros [_ [H | H]]; [discriminate | congruence].
  - intros key inst e. unfold getAI. destruct inst as [ai|]; [discriminate|].
    destruct key as [k|]; [|reflexivity]. now destruct (k =? "")%string.
  - intros key inst ai. unfold getAI. destruct inst as [ai0|]; cbn [fst snd].
    + congruence.
    + destruct key as [k|]; [|discriminate].
      destruct (k =? "")%string; cbn [fst snd]; congruence.
  - exact getAI_calls_created.
  - intros keys inst ai ai' H H'.
    pose proof (getAI_calls_first keys inst (Normal ai) H) as [_ Hall].
    symmetry. now apply Hall.
Qed.

Lemma getAI_is_a_singleton_witness :
  (exists e, fst (getAI (Some "") None) = Throw e) /\
  snd (getAI (Some "key-1") None) = Some {| apiKey := "key-1" |}.
Proof.
  pose proof getAI_is_a_singleton as (H1 & _ & H3 & _).
  split.
  - apply H1. split; [reflexivity | right; reflexivity].
  - apply H3. reflexivity.
Defined.

(** ** The scanner *)

Lemma camera_error_message name message : snd (camera_error name message) <> "".
Proof.
  unfold camera_error.
  repeat match goal with
         | |- context [if ?b then _ else _] => destruct b
         end; cbn [snd]; discriminate.
Qed.

Lemma camera_error_denied name message :
  fst (camera_error name message) = true <->
  name = "NotAllowedError" \/ name = "PermissionDeniedError".
Proof.
  unfold camera_error.
  destruct (String.eqb_spec name "NotAllowedError") as [->|H1];
    [cbn; tauto|].
  destruct (String.eqb_spec name "PermissionDeniedError") as [->|H2];
    [cbn; tauto|].
  cbn [orb].
  repeat match goal with
         | |- context [if ?b then _ else _] => destruct b
         end; cbn [fst]; split; (discriminate || tauto).
Qed.

Ltac camera_cases :=
  cbn; repeat split; intros;
  repeat match goal with
         | H : _ /\ _ |- _ => destruct H
         | H : exists _, _ |- _ => destruct H
         | H : _ \/ _ |- _ => destruct H
         | H : Some _ = Some _ |- _ => injection H as <-
         end;
  try discriminate; try congruence; auto.

(** X15. [startCamera] ends in exactly one of two ways: it holds a stream
    and shows no error, or it holds none and shows an error whose message
    is not empty (so the error panel, with its upload and manual-entry
    fallbacks, is rendered).  The first frame is requested only with a
    stream; permission is reported as denied exactly when no stream was
    obtained and the last request was rejected as NotAllowedError or
    PermissionDeniedError; and no camera request is made in an insecure
    context or without the camera API. *)
Theorem startCamera_stream_or_error :
  forall c,
    let s := startCamera c in
    (error s = None <-> stream s <> None) /\
    (forall m, error s = Some m -> m <> "") /\
    (tick_requested s = true -> stream s <> None /\ videoRef_current c = true) /\
    (isPermissionDenied s = true <->
     isSecureContext c = true /\ getUserMedia_exists c = true /\
     (exists n m, getUserMedia_environment c = media_rejects n m) /\
     (exists m, getUserMedia_any c = media_rejects "NotAllowedError" m \/
                getUserMedia_any c = media_rejects "PermissionDeniedError" m)) /\
    (isSecureContext c = false \/ getUserMedia_exists c = false ->
     getUserMedia_requests s = 0%nat /\ stream s = None).
Proof.
  intros c s. subst s. unfold startCamera.
  destruct (isSecureContext c); cbn [negb]; [|camera_cases].
  destruct (getUserMedia_exists c); cbn [negb]; [|camera_cases].
  destruct (getUserMedia_environment c) as [st|n1 m1]; [camera_cases|].
  destruct (getUserMedia_any c) as [st|n2 m2]; [camera_cases|].
  cbn [error stream tick_requested isPermissionDenied getUserMedia_requests].
  split; [split; [discriminate | congruence]|].
  split; [intros m H; injection H as <-; apply camera_error_message|].
  split; [discriminate|].
  split; [|intros [H | H]; discriminate].
  rewrite camera_error_denied. split.
  - intros [-> | ->]; repeat split; eauto.
  - intros (_ & _ & _ & (m & [H | H])); injection H; tauto.
Qed.

(** X16. A rejection of the request for the environment-facing camera is
    never shown: [startCamera] then asks for any camera, and what it ends
    with depends on that second request only. *)
Theorem startCamera_falls_back :
  forall c name message,
    isSecureContext c = true ->
    getUserMedia_exists c = true ->
    getUserMedia_environment c = media_rejects name message ->
    getUserMedia_requests (startCamera c) = 2%nat /\
    (forall s, getUserMedia_any c = media_stream s ->
               stream (startCamera c) = Some s /\ error (startCamera c) = None /\
               isPermissionDenied (startCamera c) = false) /\
    (forall name' message',
        getUserMedia_any c = media_rejects name' message' ->
        error (startCamera c) = Some (snd (camera_error name' message')) /\
        stream (startCamera c) = None).
Proof.
  intros c name message Hs He Hr. unfold startCamera. rewrite Hs, He, Hr.
  cbn [negb]. destruct (getUserMedia_any c) as [st|n m]; cbn.
  - repeat split; try reflexivity; try discriminate.
    + now injection H as <-.
  - repeat split; try discriminate.
    + now injection H as <- <-.
Qed.

Lemma startCamera_falls_back_witness :
  let c := {| isSecureContext := true; getUserMedia_exists := true;
              getUserMedia_environment := media_rejects "NotAllowedError" "";
              getUserMedia_any := media_stream 7; videoRef_current := true |} in
  getUserMedia_requests (startCamera c) = 2%nat /\
  stream (startCamera c) = Some 7%nat /\
  error (startCamera c) = None.
Proof.
  intro c.
  destruct (startCamera_falls_back c "NotAllowedError" "" eq_refl eq_refl eq_refl)
    as (H1 & H2 & _).
  destruct (H2 7%nat eq_refl) as (H3 & H4 & _).
  repeat split; assumption.
Defined.

Lemma ticks_spec frames : forall data rest,
  ticks frames = (Some data, rest) <->
  exists before f,
    frames = (before ++ f :: rest)%list /\
    (forall g, In g before -> tick g = None) /\
    tick f = Some data.
Proof.
  induction frames as [|f0 frames IH]; intros data rest; cbn [ticks].
  - split; [discriminate|]. intros (before & f & H & _).
    destruct before; discriminate.
  - destruct (tick f0) as [d|] eqn:E.
    + split.
      * intro H. injection H as <- <-. exists [], f0. cbn. tauto.
      * intros (before & f & H & Hb & Hf). destruct before as [|g before].
        -- cbn in H. injection H as <- <-. congruence.
        -- cbn in H. injection H as <- _.
           specialize (Hb f0 (or_introl eq_refl)). congruence.
    + rewrite IH. split.
      * intros (before & f & -> & Hb & Hf). exists (f0 :: before), f.
        split; [reflexivity|]. split; [|exact Hf].
        intros g [<- | Hg]; [exact E | now apply Hb].
      * intros (before & f & H & Hb & Hf). destruct before as [|g before].
        -- cbn in H. injection H as <- _. congruence.
        -- cbn in H. injection H as <- ->. exists before, f.
           split; [reflexivity|]. split; [|exact Hf].
           intros g' Hg'. apply Hb. now right.
Qed.

(** X17. The capture loop stops at the first frame in which a code is
    read: [onScan] gets the data of the first frame for which the video
    is ready, the canvas and its context exist and [jsQR] finds a code
    (be the data empty); every frame before it was skipped, no frame
    after it is read.  If no frame has a code, [onScan] is not called. *)
Theorem ticks_first_code :
  (forall f data,
      tick f = Some data <->
      HAVE_ENOUGH_DATA f = true /\ canvasRef_current f = true /\
      getContext_2d f = true /\ jsQR f = Some data) /\
  (forall frames data rest,
      ticks frames = (Some data, rest) <->
      exists before f,
        frames = (before ++ f :: rest)%list /\
        (forall g, In g before -> tick g = None) /\
        tick f = Some data) /\
  (forall frames,
      fst (ticks frames) = None <-> forall g, In g frames -> tick g = None).
Proof.
  split; [|split; [exact ticks_spec|]].
  - intros f data. unfold tick.
    destruct (HAVE_ENOUGH_DATA f), (canvasRef_current f), (getContext_2d f);
      split; try discriminate; try tauto;
      intros (H1 & H2 & H3 & _); discriminate.
  - induction frames as [|f frames IH]; cbn [ticks].
    + split; [intros _ g [] | reflexivity].
    + destruct (tick f) as [d|] eqn:E; cbn [fst].
      * split; [discriminate|]. intro H.
        specialize (H f (or_introl eq_refl)). congruence.
      * rewrite IH. split.
        -- intros H g [<- | Hg]; [exact E | now apply H].
        -- intros H g Hg. apply H. now right.
Qed.

(** ** How a level is shown *)

(** X18. Each of the three levels has its own colour and its own icon,
    and none of them the fallback grey; a string that is not a level gets
    the grey, and the icon of high-risk. *)
Theorem getRiskColor_tells_levels_apart :
  (forall l l',
      getRiskColor (RiskLevel_string l) = getRiskColor (RiskLevel_string l') -> l = l') /\
  (forall l l',
      HistoryItem_Icon (RiskLevel_string l) = HistoryItem_Icon (RiskLevel_string l') ->
      l = l') /\
  (forall s,
      getRiskColor s = "#8E9299" <-> forall l, s <> RiskLevel_string l) /\
  (forall s,
      (forall l, s <> RiskLevel_string l) -> HistoryItem_Icon s = ShieldAlert).
Proof.
  split; [|split; [|split]].
  - intros [| |] [| |]; cbn; congruence.
  - intros [| |] [| |]; cbn; congruence.
  - intro s. unfold getRiskColor.
    destruct (String.eqb_spec s "safe") as [->|H1].
    { split; [discriminate | intro H; exfalso; now apply (H safe)]. }
    destruct (String.eqb_spec s "suspicious") as [->|H2].
    { split; [discriminate | intro H; exfalso; now apply (H suspicious)]. }
    destruct (String.eqb_spec s "high-risk") as [->|H3].
    { split; [discriminate | intro H; exfalso; now apply (H high_risk)]. }
    split; [|reflexivity]. intros _ [| |]; assumption.
  - intros s H. unfold HistoryItem_Icon.
    destruct (String.eqb_spec s "safe") as [->|H1];
      [exfalso; now apply (H safe)|].
    destruct (String.eqb_spec s "suspicious") as [->|H2];
      [exfalso; now apply (H suspicious)|].
    reflexivity.
Qed.

(** ** The identifier of a result *)

Lemma substring_length : forall s n m,
  String.length (String.substring n m s) = Nat.min m (String.length s - n).
Proof.
  induction s as [|c s IH]; intros n m.
  - destruct n, m; reflexivity.
  - destruct n as [|n].
    + destruct m as [|m]; [reflexivity|]. cbn [String.substring String.length].
      rewrite IH. rewrite Nat.sub_0_r. reflexivity.
    + cbn [String.substring String.length]. rewrite IH. reflexivity.
Qed.

